(** * github-repository-card: the fetch / classify / respond path

    A shallow embedding of [src/utils/common.ts], [src/utils/fetchers.ts]
    and of the API route handler, with the properties of the repository's
    specification stated over it.

    JavaScript strings are sequences of UTF-16 code units ([list Z]);
    the numbers of this program are the integers read by [parseInt] and
    [NaN]; effects (outbound requests, console output, thrown errors) are
    threaded through a small state-and-exception monad. *)

From Stdlib Require Import String Ascii ZArith List Bool Lia.
From Stdlib Require Decimal DecimalPos.
Import ListNotations.
Local Open Scope Z_scope.

(* ================================================================== *)
(** * The JavaScript runtime, as far as the program uses it            *)
(* ================================================================== *)

(** ** Strings *)

Definition jsstring := list Z.

(** An ASCII literal of the source as code units. *)
Definition lit (s : string) : jsstring :=
  map (fun a => Z.of_N (N_of_ascii a)) (list_ascii_of_string s).
Arguments lit s%_string.

(** The double-quote character. *)
Definition dq : jsstring := [34].

(** A literal in which every backquote stands for a double quote: used for
    the SVG template, whose text is full of quoted attributes. *)
Definition qlit (s : string) : jsstring :=
  map (fun c => if c =? 96 then 34 else c) (lit s).
Arguments qlit s%_string.

Fixpoint str_eqb (a b : jsstring) : bool :=
  match a, b with
  | [], [] => true
  | x :: a', y :: b' => (x =? y) && str_eqb a' b'
  | _, _ => false
  end.

(** Truthiness of a string: every string but the empty one. *)
Definition str_truthy (s : jsstring) : bool :=
  match s with [] => false | _ :: _ => true end.

(** [s.startsWith(p)] *)
Fixpoint startsWith (p s : jsstring) : bool :=
  match p, s with
  | [], _ => true
  | x :: p', y :: s' => (x =? y) && startsWith p' s'
  | _ :: _, [] => false
  end.

(** [s.includes(sub)] *)
Fixpoint includes (s sub : jsstring) : bool :=
  startsWith sub s ||
  match s with
  | [] => false
  | _ :: s' => includes s' sub
  end.

(** [s.split(sep)] for a non-empty separator: the pieces between the
    successive, non-overlapping occurrences of [sep], scanning from the
    left.  [skip] counts the units of an occurrence still to be passed and
    [cur] holds the current piece, reversed. *)
Fixpoint split_go (sep s : jsstring) (skip : nat) (cur : jsstring)
  : list jsstring :=
  match s with
  | [] => [rev cur]
  | c :: rest =>
      match skip with
      | S k => split_go sep rest k cur
      | O =>
          if startsWith sep s
          then rev cur :: split_go sep rest (Nat.pred (length sep)) []
          else split_go sep rest O (c :: cur)
      end
  end.

Definition split (s sep : jsstring) : list jsstring := split_go sep s O [].

(** [a.join(sep)] *)
Fixpoint join (sep : jsstring) (a : list jsstring) : jsstring :=
  match a with
  | [] => []
  | [x] => x
  | x :: a' => x ++ sep ++ join sep a'
  end.

(** White space of the language (WhiteSpace and LineTerminator): what
    [trim] removes, what [parseInt] skips and what [\s] matches. *)
Definition is_white_space (c : Z) : bool :=
  ((9 <=? c) && (c <=? 13)) || (c =? 32) || (c =? 160) || (c =? 5760)
  || ((8192 <=? c) && (c <=? 8202)) || (c =? 8232) || (c =? 8233)
  || (c =? 8239) || (c =? 8287) || (c =? 12288) || (c =? 65279).

Fixpoint drop_while (p : Z -> bool) (s : jsstring) : jsstring :=
  match s with
  | [] => []
  | c :: s' => if p c then drop_while p s' else s
  end.

Fixpoint take_while (p : Z -> bool) (s : jsstring) : jsstring :=
  match s with
  | [] => []
  | c :: s' => if p c then c :: take_while p s' else []
  end.

(** A unit other than the slash. *)
Definition not_slash (c : Z) : bool := negb (c =? 47).

(** [s.trim()] *)
Definition trim (s : jsstring) : jsstring :=
  rev (drop_while is_white_space (rev (drop_while is_white_space s))).

(** ** Numbers *)

(** The numbers of the program: [NaN], the two infinities, and the
    integers.  A number read from text is rounded as a double is (see
    [round_to_double]), so every [Num z] the program computes is an
    integer that a double holds. *)
Inductive jsnum : Type :=
| NaN
| Num (z : Z)
| Infinity (negative : bool).

Definition isNaN (n : jsnum) : bool :=
  match n with NaN => true | _ => false end.

Definition num_truthy (n : jsnum) : bool :=
  match n with
  | NaN => false
  | Num z => negb (z =? 0)
  | Infinity _ => true
  end.

(** [Math.min] and [Math.max]: [NaN] as soon as one argument is. *)
Definition Math_min (a b : jsnum) : jsnum :=
  match a, b with
  | NaN, _ | _, NaN => NaN
  | Infinity true, _ | _, Infinity true => Infinity true
  | Infinity false, y => y
  | x, Infinity false => x
  | Num x, Num y => Num (Z.min x y)
  end.

Definition Math_max (a b : jsnum) : jsnum :=
  match a, b with
  | NaN, _ | _, NaN => NaN
  | Infinity false, _ | _, Infinity false => Infinity false
  | Infinity true, y => y
  | x, Infinity true => x
  | Num x, Num y => Num (Z.max x y)
  end.

(** The double nearest to the integer [z], ties going to the even
    significand of 53 bits; an integer that rounds to 2^1024 or beyond
    becomes an infinity. *)
Definition round_to_double (z : Z) : jsnum :=
  let a := Z.abs z in
  if a <? 2 ^ 53 then Num z
  else
    let e := Z.log2 a - 52 in
    let q := a / 2 ^ e in
    let r := a mod 2 ^ e in
    let half := 2 ^ (e - 1) in
    let q' := if (half <? r) || ((r =? half) && Z.odd q) then q + 1 else q in
    let v := q' * 2 ^ e in
    if 2 ^ 1024 <=? v then Infinity (z <? 0)
    else Num (if z <? 0 then - v else v).

Fixpoint uint_units (d : Decimal.uint) : jsstring :=
  match d with
  | Decimal.Nil => []
  | Decimal.D0 d' => 48 :: uint_units d'
  | Decimal.D1 d' => 49 :: uint_units d'
  | Decimal.D2 d' => 50 :: uint_units d'
  | Decimal.D3 d' => 51 :: uint_units d'
  | Decimal.D4 d' => 52 :: uint_units d'
  | Decimal.D5 d' => 53 :: uint_units d'
  | Decimal.D6 d' => 54 :: uint_units d'
  | Decimal.D7 d' => 55 :: uint_units d'
  | Decimal.D8 d' => 56 :: uint_units d'
  | Decimal.D9 d' => 57 :: uint_units d'
  end.

(** The decimal digits of a natural number, ["0"] for zero. *)
Definition digits_of (z : Z) : jsstring :=
  match z with
  | Zpos p => uint_units (Pos.to_uint p)
  | _ => [48]
  end.

(** [String(z)] for an integer. *)
Definition int_to_string (z : Z) : jsstring :=
  if z <? 0 then 45 :: digits_of (- z) else digits_of z.

(** [String(n)] for a number.  The digits of an integer are what the
    language prints below 2^53; beyond, it prints fewer digits or an
    exponent, still behind the same sign and a first digit, and the
    program looks at that text only to see whether it reads as a
    number. *)
Definition num_to_string (n : jsnum) : jsstring :=
  match n with
  | NaN => lit "NaN"
  | Num z => int_to_string z
  | Infinity negative =>
      (if negative then [45] else []) ++ lit "Infinity"
  end.

(** The text of [n / 2], as a template literal prints it: an integer, or
    an integer followed by [.5]. *)
Definition half_to_string (n : jsnum) : jsstring :=
  match n with
  | NaN => lit "NaN"
  | Num z =>
      if Z.even z then int_to_string (z / 2)
      else (if z <? 0 then [45] else []) ++
           digits_of (Z.abs z / 2) ++ lit ".5"
  | Infinity negative =>
      (if negative then [45] else []) ++ lit "Infinity"
  end.

Definition is_digit (c : Z) : bool := (48 <=? c) && (c <=? 57).

(** The optional sign in front of a numeral. *)
Definition read_sign (s : jsstring) : bool * jsstring :=
  match s with
  | c :: r =>
      if c =? 45 then (true, r)
      else if c =? 43 then (false, r)
      else (false, s)
  | [] => (false, [])
  end.

(** [parseInt(s, 10)]: leading white space is skipped, one sign is read,
    then the longest run of decimal digits; [NaN] when that run is
    empty, and otherwise the double nearest to the integer read. *)
Definition parseInt (s : jsstring) : jsnum :=
  let signed := read_sign (drop_while is_white_space s) in
  match take_while is_digit (snd signed) with
  | [] => NaN
  | ds =>
      let v := fold_left (fun acc d => acc * 10 + (d - 48)) ds 0 in
      round_to_double (if fst signed then - v else v)
  end.

(** ** Values read through a property that may be missing or inherited *)

Inductive jsval : Type :=
| VUndefined
| VString (s : jsstring)
| VBuiltin (key : jsstring).   (* the member [key] of [Object.prototype] *)

Definition val_truthy (v : jsval) : bool :=
  match v with
  | VUndefined => false
  | VString s => str_truthy s
  | VBuiltin _ => true
  end.

(** [String(v)]; a built-in function prints as its native source text and
    the prototype object itself as [[object Object]]. *)
Definition String_of (v : jsval) : jsstring :=
  match v with
  | VUndefined => lit "undefined"
  | VString s => s
  | VBuiltin k =>
      if str_eqb k (lit "__proto__") then lit "[object Object]"
      else lit "function " ++
           (if str_eqb k (lit "constructor") then lit "Object" else k) ++
           lit "() { [native code] }"
  end.

(** The names every object literal inherits from [Object.prototype]. *)
Definition Object_prototype_keys : list jsstring :=
  [ lit "constructor"; lit "__defineGetter__"; lit "__defineSetter__";
    lit "hasOwnProperty"; lit "__lookupGetter__"; lit "__lookupSetter__";
    lit "isPrototypeOf"; lit "propertyIsEnumerable"; lit "toString";
    lit "valueOf"; lit "__proto__"; lit "toLocaleString" ].

(** [obj[key]] on an object literal with the own properties [own]. *)
Fixpoint own_property (own : list (jsstring * jsstring)) (key : jsstring)
  : option jsstring :=
  match own with
  | [] => None
  | (k, v) :: own' => if str_eqb k key then Some v else own_property own' key
  end.

Definition get_property (own : list (jsstring * jsstring)) (key : jsstring)
  : jsval :=
  match own_property own key with
  | Some v => VString v
  | None =>
      if existsb (str_eqb key) Object_prototype_keys
      then VBuiltin key else VUndefined
  end.

(** A query-string parameter of the framework: absent, one value, or
    several. *)
Inductive QueryValue : Type :=
| QUndefined
| QString (s : jsstring)
| QArray (a : list jsstring).

Definition query_truthy (q : QueryValue) : bool :=
  match q with
  | QUndefined => false
  | QString s => str_truthy s
  | QArray _ => true
  end.

Definition String_of_query (q : QueryValue) : jsstring :=
  match q with
  | QUndefined => lit "undefined"
  | QString s => s
  | QArray a => join (lit ",") a
  end.

(** [a.slice(0, n)] *)
Definition slice0 {A : Type} (a : list A) (n : Z) : list A :=
  if n <? 0 then firstn (Z.to_nat (Z.of_nat (length a) + n)) a
  else firstn (Z.to_nat n) a.

(** [a[i] += suffix] on an array of strings.  Inside the array the element
    is extended; at a negative [i] the assignment creates a property that
    is no element; past the end it creates the element
    ["undefined" + suffix] (the holes before it are not kept: the only
    caller filters the array next, which skips holes). *)
Fixpoint append_at_nat (a : list jsstring) (i : nat) (suffix : jsstring)
  : list jsstring :=
  match a, i with
  | [], _ => [lit "undefined" ++ suffix]
  | x :: a', O => (x ++ suffix) :: a'
  | x :: a', S i' => x :: append_at_nat a' i' suffix
  end.

Definition append_at (a : list jsstring) (i : Z) (suffix : jsstring)
  : list jsstring :=
  if i <? 0 then a else append_at_nat a (Z.to_nat i) suffix.

(* ================================================================== *)
(** * Data of the program                                              *)
(* ================================================================== *)

(** One entry of the [errors] array of a GraphQL response. *)
Record GqlError : Type := mkGqlError {
  gql_type : option jsstring;
  gql_message : option jsstring
}.

(** The [repository] object selected by [GRAPHQL_REPO_QUERY]. *)
Record Repository : Type := mkRepository {
  stargazerCount : Z;
  collaborators_totalCount : option Z;
  languages_nodes : list jsstring;
  createdAt : jsstring
}.

(** The body of a GraphQL response. *)
Record GqlBody : Type := mkGqlBody {
  repository : option Repository;
  errors : option (list GqlError)
}.

(** The GraphQL variables built by [statsFetcher]: the first two elements
    of the destructured array, each [undefined] when the array is
    shorter. *)
Record RepoVariables : Type := mkRepoVariables {
  owner : option jsstring;
  name : option jsstring
}.

(** The argument of the HTTP client. *)
Record AxiosRequest : Type := mkAxiosRequest {
  url : jsstring;
  method : jsstring;
  req_headers : list (jsstring * jsstring);
  req_query : jsstring;
  req_variables : RepoVariables
}.

(** The request object that the HTTP adapter leaves in the envelope: a
    plain record, or an object of the platform whose graph refers back to
    itself, as the request of a socket does; [report] is the message of
    the engine when it is asked to serialize such an object. *)
Inductive ClientRequest : Type :=
| plain_request
| cyclic_request (report : jsstring).

(** The response envelope of the HTTP client. *)
Record AxiosResponse : Type := mkAxiosResponse {
  data : GqlBody;
  status : Z;
  statusText : jsstring;
  response_headers : list (jsstring * jsstring);
  config : AxiosRequest;
  client_request : ClientRequest
}.

(** Thrown values. *)
Inductive JsError : Type :=
| CustomError (message type : jsstring) (secondaryMessage : jsval)
| MissingParamError (missedParams : list jsstring)
                    (secondaryMessage : option jsstring) (message : jsstring)
| TypeError (message : jsstring)
| Error (message : jsstring).

Definition err_message (e : JsError) : jsstring :=
  match e with
  | CustomError m _ _ => m
  | MissingParamError _ _ m => m
  | TypeError m => m
  | Error m => m
  end.

Definition err_secondaryMessage (e : JsError) : jsval :=
  match e with
  | CustomError _ _ s => s
  | MissingParamError _ (Some s) _ => VString s
  | _ => VUndefined
  end.

Definition err_type (e : JsError) : option jsstring :=
  match e with
  | CustomError _ t _ => Some t
  | _ => None
  end.

(** What the process has written to the console. *)
Inductive LogEntry : Type :=
| console_log_res (r : AxiosResponse)
| console_error_errors (es : list GqlError)
| console_error_err (e : JsError).

(** The observable effects of a run: the requests sent out and the
    console. *)
Record World : Type := mkWorld {
  sent : list AxiosRequest;
  console : list LogEntry
}.

(** [process.env] *)
Record ProcessEnv : Type := mkProcessEnv {
  NODE_ENV : option jsstring;
  CACHE_SECONDS : option jsstring
}.

(** The outcome of a call: a value or a thrown error. *)
Inductive Result (A : Type) : Type :=
| Return (a : A)
| Throw (e : JsError).
Arguments Return {A} a.
Arguments Throw {A} e.

(** Computations of the program: state passing over [World], with
    exceptions. *)
Definition M (A : Type) : Type := World -> Result A * World.

Definition ret {A : Type} (a : A) : M A := fun w => (Return a, w).

Definition throw {A : Type} (e : JsError) : M A := fun w => (Throw e, w).

Definition bind {A B : Type} (c : M A) (k : A -> M B) : M B :=
  fun w =>
    match c w with
    | (Return a, w') => k a w'
    | (Throw e, w') => (Throw e, w')
    end.

Notation "x <- c ;; k" := (bind c (fun x => k))
  (at level 61, c at next level, right associativity).
Notation "c ;;; k" := (bind c (fun _ => k))
  (at level 61, right associativity).

(** The response object of the framework, as the handler leaves it. *)
Inductive Body : Type :=
| NoBody
| JsonBody (stats : AxiosResponse)
| SentBody (text : jsstring).

Record ServerResponse : Type := mkServerResponse {
  headers : list (jsstring * jsstring);
  body : Body
}.

(** [res.setHeader(key, value)]: a header set twice keeps the last
    value. *)
Fixpoint set_assoc (key value : jsstring) (h : list (jsstring * jsstring))
  : list (jsstring * jsstring) :=
  match h with
  | [] => [(key, value)]
  | (k, v) :: h' =>
      if str_eqb k key then (key, value) :: h'
      else (k, v) :: set_assoc key value h'
  end.

Definition setHeader (key value : jsstring) (r : ServerResponse)
  : ServerResponse :=
  mkServerResponse (set_assoc key value (headers r)) (body r).

Definition getHeader (key : jsstring) (r : ServerResponse) : option jsstring :=
  own_property (headers r) key.

(** [res.json(stats)] of the framework: the content type is set to JSON,
    then the value is serialized and sent.  Serializing a value whose
    graph is cyclic throws a [TypeError], after the header has been
    set. *)
Definition json (stats : AxiosResponse) (r : ServerResponse)
  : Result unit * ServerResponse :=
  let r1 := setHeader (lit "Content-Type")
              (lit "application/json; charset=utf-8") r in
  match client_request stats with
  | cyclic_request report => (Throw (TypeError report), r1)
  | plain_request =>
      (Return tt, mkServerResponse (headers r1) (JsonBody stats))
  end.

Definition send (text : jsstring) (r : ServerResponse) : ServerResponse :=
  mkServerResponse (headers r) (SentBody text).

(** The request object of the framework: the two query parameters the
    handler reads. *)
Record NextApiRequest : Type := mkNextApiRequest {
  query_repo : QueryValue;
  query_cache_seconds : QueryValue
}.

(* ================================================================== *)
(** * Reference instances of what the program takes from outside       *)
(* ================================================================== *)

(** Case folding of the regular expressions ([Canonicalize] of the
    language) on ASCII: small letters fold to capitals, everything else is
    kept.  On ASCII text this is the runtime's folding. *)
Definition canonicalize_ascii (c : Z) : Z :=
  if (97 <=? c) && (c <=? 122) then c - 32 else c.

(** ** The [word-wrap] package

    Called with the single option [width] (a positive number), so with its
    default indent of two spaces and no trimming: the text is cut by the
    global matches of [.{1,width}(B+|$)|[^B]+?(B+|$)], where [B] is a
    white-space unit or U+200B; one trailing newline is removed from each
    match, and the matches are joined by a newline followed by the
    indent. *)

(** What the dot of the pattern does not match. *)
Definition is_line_terminator (c : Z) : bool :=
  (c =? 10) || (c =? 13) || (c =? 8232) || (c =? 8233).

(** The units of [B]. *)
Definition is_break (c : Z) : bool := is_white_space c || (c =? 8203).

(** First alternative: at most [j] units of one line, then a run of breaks
    or the end of the text; the longest [j] that fits wins. *)
Fixpoint wrap_alt1 (s : jsstring) (j : nat) : option jsstring :=
  match j with
  | O => None
  | S j' =>
      match skipn j s with
      | [] => Some (firstn j s)
      | c :: _ =>
          if is_break c
          then Some (firstn j s ++ take_while is_break (skipn j s))
          else wrap_alt1 s j'
      end
  end.

(** Second alternative: a whole word, however long, with the breaks after
    it. *)
Definition wrap_alt2 (s : jsstring) : option jsstring :=
  match take_while (fun c => negb (is_break c)) s with
  | [] => None
  | word => Some (word ++ take_while is_break (skipn (length word) s))
  end.

(** The match that starts at the head of [s], if there is one. *)
Definition wrap_match_at (width : nat) (s : jsstring) : option jsstring :=
  let k := Nat.min width
             (length (take_while (fun c => negb (is_line_terminator c)) s)) in
  match wrap_alt1 s k with
  | Some m => Some m
  | None => wrap_alt2 s
  end.

(** All matches from left to right; [skip] counts the units of the last
    match still to be passed; a position with no match is stepped over. *)
Fixpoint wrap_matches (width : nat) (s : jsstring) (skip : nat)
  : list jsstring :=
  match s with
  | [] => []
  | _ :: rest =>
      match skip with
      | S k => wrap_matches width rest k
      | O =>
          match wrap_match_at width s with
          | Some m => m :: wrap_matches width rest (Nat.pred (length m))
          | None => wrap_matches width rest O
          end
      end
  end.

(** A match loses the newline it ends with, if any. *)
Definition strip_newline (line : jsstring) : jsstring :=
  match rev line with
  | 10 :: r => rev r
  | _ => line
  end.

(** [wrap(str, { width })]; a width of zero stands for the default of
    50. *)
Definition word_wrap (str : jsstring) (width : Z) : jsstring :=
  let w := if width =? 0 then 50 else width in
  let indent := lit "  " in
  indent ++ join ([10] ++ indent)
                 (map strip_newline (wrap_matches (Z.to_nat w) str O)).

(** A retrier with a single credential, which calls the fetcher once. *)
Definition retryer_single (token : jsstring)
    (fetcher : RepoVariables -> jsstring -> M AxiosResponse)
    (variables : RepoVariables) : M AxiosResponse :=
  fetcher variables token.

(** ** Sample runs *)

(** A world in which nothing has happened yet, and the untouched response
    object. *)
Definition initial_world : World := mkWorld [] [].

Definition fresh_response : ServerResponse := mkServerResponse [] NoBody.

Definition plain_env : ProcessEnv := mkProcessEnv None None.

(** A network that answers every request with [r]. *)
Definition answering (r : AxiosResponse) (rq : AxiosRequest) (w : World)
  : Result AxiosResponse := Return r.

(** The request of the sample runs. *)
Definition sample_request : AxiosRequest :=
  mkAxiosRequest (lit "https://api.github.com/graphql") (lit "post")
    [(lit "Authorization", lit "bearer token")] []
    (mkRepoVariables (Some (lit "a")) (Some (lit "b"))).

(** A 200 OK envelope around [b] whose request object is a plain
    record. *)
Definition ok_response (b : GqlBody) : AxiosResponse :=
  mkAxiosResponse b 200 (lit "OK") [] sample_request plain_request.



(** A word of one hundred letters. *)
Definition hundred_letters : jsstring := repeat 97 100%nat.

(** [{ errors: [{ message: <that word> }] }] *)
Definition long_word_body : GqlBody :=
  mkGqlBody None (Some [mkGqlError None (Some hundred_letters)]).

(** A repository found; no [errors] field. *)
Definition found_body : GqlBody :=
  mkGqlBody
    (Some (mkRepository 42 (Some 3) [lit "TypeScript"]
             (lit "2023-01-01T00:00:00Z")))
    None.

(** [{ errors: [{ type: 'NOT_FOUND' }] }] *)
Definition not_found_body : GqlBody :=
  mkGqlBody None (Some [mkGqlError (Some (lit "NOT_FOUND")) None]).

(** [{ errors: [{ message: 'x < y' }] }] *)
Definition message_body : GqlBody :=
  mkGqlBody None (Some [mkGqlError None (Some (lit "x < y"))]).

(** [{ errors: [{}] }] *)
Definition bare_error_body : GqlBody :=
  mkGqlBody None (Some [mkGqlError None None]).

(** [{ errors: [] }] *)
Definition empty_errors_body : GqlBody := mkGqlBody None (Some []).

(** The configuration of a test run. *)
Definition test_env : ProcessEnv := mkProcessEnv (Some (lit "test")) None.

(** A network on which every request fails with [e]. *)
Definition failing (e : JsError) (rq : AxiosRequest) (w : World)
  : Result AxiosResponse := Throw e.

(** ** The cache duration in the words of the specification *)







(** [sub] occurs in [s]. *)
Definition contains (s sub : jsstring) : Prop :=
  exists pre post, s = pre ++ sub ++ post.

(** [s] ends with [suffix]. *)
Definition endsWith (s suffix : jsstring) : Prop :=
  exists pre, s = pre ++ suffix.

(** ** The error card in the words of the specification *)



(* ================================================================== *)
(** * The program                                                      *)
(* ================================================================== *)

Section Program.

(** Case folding of the regular-expression engine (the [i] flag): the
    runtime's Unicode table. *)
Variable Canonicalize : Z -> Z.

(** The [word-wrap] package called as [wrap(text, { width })]. *)
Variable wrap : jsstring -> Z -> jsstring.

(** The HTTP client: what the network answers to a request, given what has
    happened so far. *)
Variable axios : AxiosRequest -> World -> Result AxiosResponse.

(** [retryer] of [./retryer]: it is given the fetcher and the variables. *)
Variable retryer :
  (RepoVariables -> jsstring -> M AxiosResponse) -> RepoVariables ->
  M AxiosResponse.

Variable env : ProcessEnv.

(** ** common.ts *)

Definition ERROR_CARD_LENGTH : jsstring := lit "576.5".

(** [ERROR_CARD_LENGTH - 1], printed. *)
Definition ERROR_CARD_LENGTH_minus_1 : jsstring := lit "575.5".

(** Two units match under the [i] flag when they fold to the same unit. *)
Definition ci_eq (a b : Z) : bool := Canonicalize a =? Canonicalize b.

(** Some unit among the [n] units from [lo] on matches [ch]. *)
Fixpoint ci_in_range (ch lo : Z) (n : nat) : bool :=
  match n with
  | O => false
  | S n' => ci_eq lo ch || ci_in_range ch (lo + 1) n'
  end.

(** The class [\u00A0-\u9999<>&] under the [i] flag: a unit belongs to it
    when it folds like one of the units listed. *)
Definition entity_class (ch : Z) : bool :=
  ci_in_range ch 160 (Z.to_nat (39321 - 160 + 1))
  || ci_eq 60 ch || ci_eq 62 ch || ci_eq 38 ch.

(** The negative lookahead [(?!#)]. *)
Definition followed_by_hash (rest : jsstring) : bool :=
  match rest with
  | c :: _ => ci_eq 35 c
  | [] => false
  end.

(** The first [replace] of [encodeHTML]. *)
Fixpoint encode_entities (str : jsstring) : jsstring :=
  match str with
  | [] => []
  | c :: rest =>
      if entity_class c && negb (followed_by_hash rest)
      then lit "&#" ++ int_to_string c ++ lit ";" ++ encode_entities rest
      else c :: encode_entities rest
  end.

Definition encodeHTML (str : jsstring) : jsstring :=
  filter (fun c => negb (ci_eq 8 c)) (encode_entities str).

Definition renderError (message secondaryMessage : jsstring) : jsstring :=
  join [10]
    [ [];
      qlit "    <svg width=`" ++ ERROR_CARD_LENGTH ++
        qlit "` height=`120` viewBox=`0 0 " ++ ERROR_CARD_LENGTH ++
        qlit " 120` fill=`none` xmlns=`http://www.w3.org/2000/svg`>";
      qlit "    <style>";
      qlit "    .text { font: 600 16px 'Segoe UI', Ubuntu, Sans-Serif; fill: #2F80ED }";
      qlit "    .small { font: 600 12px 'Segoe UI', Ubuntu, Sans-Serif; fill: #252525 }";
      qlit "    .gray { fill: #858585 }";
      qlit "    </style>";
      qlit "    <rect x=`0.5` y=`0.5` width=`" ++ ERROR_CARD_LENGTH_minus_1 ++
        qlit "` height=`99%` rx=`4.5` fill=`#FFFEFE` stroke=`#E4E2E2`/>";
      qlit "    <text x=`25` y=`45` class=`text`>Something went wrong! file an issue at moonrailgun/github-repository-card</text>";
      qlit "    <text data-testid=`message` x=`25` y=`55` class=`text small`>";
      qlit "      <tspan x=`25` dy=`18`>" ++ encodeHTML message ++ qlit "</tspan>";
      qlit "      <tspan x=`25` dy=`18` class=`gray`>" ++ secondaryMessage ++
        qlit "</tspan>";
      qlit "    </text>";
      qlit "    </svg>";
      qlit "  " ].

Definition SECONDARY_ERROR_MESSAGES : list (jsstring * jsstring) :=
  [ (lit "MAX_RETRY",
     lit "Please add an env variable called PAT_1 with your github token in vercel");
    (lit "USER_NOT_FOUND",
     lit "Make sure the provided username is not an organization");
    (lit "GRAPHQL_ERROR", lit "Please try again later");
    (lit "WAKATIME_USER_NOT_FOUND",
     lit "Make sure you have a public WakaTime profile") ].

Definition MAX_RETRY : jsstring := lit "MAX_RETRY".
Definition USER_NOT_FOUND : jsstring := lit "USER_NOT_FOUND".
Definition GRAPHQL_ERROR : jsstring := lit "GRAPHQL_ERROR".
Definition WAKATIME_ERROR : jsstring := lit "WAKATIME_ERROR".

(** [new CustomError(message, type)].  An [undefined] message leaves the
    error with the empty message of [Error]. *)
Definition new_CustomError (message : option jsstring) (type : jsstring)
  : JsError :=
  let looked_up := get_property SECONDARY_ERROR_MESSAGES type in
  CustomError
    (match message with Some m => m | None => [] end)
    type
    (if val_truthy looked_up then looked_up else VString type).

(** [new MissingParamError(missedParams, secondaryMessage)] *)
Definition new_MissingParamError (missedParams : list jsstring)
    (secondaryMessage : option jsstring) : JsError :=
  let msg :=
    lit "Missing params " ++
    join (lit ", ") (map (fun p => dq ++ p ++ dq) missedParams) ++
    lit " make sure you pass the parameters in URL" in
  MissingParamError missedParams secondaryMessage msg.

Definition clampValue (number min max : jsnum) : jsnum :=
  if isNaN (parseInt (num_to_string number)) then min
  else Math_max min (Math_min number max).

Definition THIRTY_MINUTES : Z := 1800.
Definition TWO_HOURS : Z := 7200.
Definition FOUR_HOURS : Z := 14400.
Definition ONE_DAY : Z := 86400.

Definition parseString (input : QueryValue) : jsstring :=
  if negb (query_truthy input) then [] else String_of_query input.

(** [console.log] and [console.error] *)
Definition console_write (e : LogEntry) : M unit :=
  fun w => (Return tt, mkWorld (sent w) (console w ++ [e])).

(** [logger.error]: the console, or nothing under the test
    configuration. *)
Definition logger_error (e : LogEntry) : M unit :=
  match NODE_ENV env with
  | Some v => if str_eqb v (lit "test") then ret tt else console_write e
  | None => console_write e
  end.

(** [request(data, headers)]: one POST to the GraphQL endpoint. *)
Definition request (query : jsstring) (variables : RepoVariables)
    (hdrs : list (jsstring * jsstring)) : M AxiosResponse :=
  fun w =>
    let rq := mkAxiosRequest (lit "https://api.github.com/graphql")
                (lit "post") hdrs query variables in
    let w' := mkWorld (sent w ++ [rq]) (console w) in
    (axios rq w', w').

(** The three units of the literal as the source file holds it. *)
Definition fullWidthComma : jsstring := [239; 188; 338].

(** The array [wrapped] of [wrapTextMultiline]. *)
Definition wrapped_lines (text : jsstring) (width : Z) : list jsstring :=
  let encoded := encodeHTML text in
  let isChinese := includes encoded fullWidthComma in
  if isChinese then split encoded fullWidthComma
  else split (wrap encoded width) [10].

Definition wrapTextMultiline (text : jsstring) (width maxLines : Z)
  : list jsstring :=
  let wrapped := wrapped_lines text width in
  let lines := slice0 (map trim wrapped) maxLines in
  let lines :=
    if Z.of_nat (length wrapped) >? maxLines
    then append_at lines (maxLines - 1) (lit "...")
    else lines in
  filter str_truthy lines.

(** ** fetchers.ts *)

Definition GRAPHQL_REPO_QUERY : jsstring :=
  join [10]
    [ [];
      lit "query repoInfo($owner: String!, $name: String!,) {";
      lit "  repository(owner: $owner, name: $name) {";
      lit "    stargazerCount";
      lit "    collaborators {";
      lit "      totalCount";
      lit "    }";
      lit "    languages(first: 1) {";
      lit "      nodes {";
      lit "        name";
      lit "      }";
      lit "    }";
      lit "    createdAt";
      lit "  }";
      lit "}";
      [] ].

Definition fetcher (variables : RepoVariables) (token : jsstring)
  : M AxiosResponse :=
  res <- request GRAPHQL_REPO_QUERY variables
           [(lit "Authorization", lit "bearer " ++ token)] ;;
  console_write (console_log_res res) ;;;
  ret res.

(** The variables of [statsFetcher]: [const [owner, name] =
    repoFullname.split('/')]. *)
Definition build_variables (repoFullname : jsstring) : RepoVariables :=
  let parts := split repoFullname (lit "/") in
  mkRepoVariables (nth_error parts 0) (nth_error parts 1).

Definition statsFetcher (repoFullname : jsstring) : M AxiosResponse :=
  let variables := build_variables repoFullname in
  res <- retryer fetcher variables ;;
  ret res.

(** The message of the engine when a property of [undefined] is read. *)
Definition undefined_type_message : jsstring :=
  lit "Cannot read properties of undefined (reading 'type')".

Definition opt_eqb (o : option jsstring) (s : jsstring) : bool :=
  match o with
  | Some v => str_eqb v s
  | None => false
  end.

Definition opt_truthy (o : option jsstring) : bool :=
  match o with
  | Some v => str_truthy v
  | None => false
  end.

(** [o || d] for a string property [o] that may be missing. *)
Definition or_default (o : option jsstring) (d : jsstring) : jsstring :=
  match o with
  | Some v => if str_truthy v then v else d
  | None => d
  end.

(** The string behind a property known to be truthy. *)
Definition the_string (o : option jsstring) : jsstring :=
  match o with
  | Some v => v
  | None => []
  end.

Definition fetchStats (repo : jsstring) : M AxiosResponse :=
  if negb (str_truthy repo)
  then throw (new_MissingParamError [lit "repo"] None)
  else
    res <- statsFetcher repo ;;
    match errors (data res) with
    | Some errs =>
        logger_error (console_error_errors errs) ;;;
        match errs with
        | [] => throw (TypeError undefined_type_message)
        | e0 :: _ =>
            if opt_eqb (gql_type e0) (lit "NOT_FOUND")
            then throw (new_CustomError
                          (Some (or_default (gql_message e0)
                                            (lit "Could not fetch user.")))
                          USER_NOT_FOUND)
            else if opt_truthy (gql_message e0)
            then throw (new_CustomError
                          (nth_error
                             (wrapTextMultiline (the_string (gql_message e0))
                                                90 1) 0)
                          (statusText res))
            else throw (new_CustomError
                          (Some (lit "Something went wrong while trying to retrieve the stats data using the GraphQL API."))
                          GRAPHQL_ERROR)
        end
    | None => ret res
    end.

(** ** The API route *)

(** The [catch] block of the handler. *)
Definition on_error (err : JsError) (res : ServerResponse) (w : World)
  : ServerResponse * World :=
  let w2 := snd (logger_error (console_error_err err) w) in
  let res :=
    setHeader (lit "Cache-Control")
      (lit "no-cache, no-store, must-revalidate") res in
  (send (renderError (err_message err)
                     (String_of (err_secondaryMessage err))) res, w2).

Definition handler (req : NextApiRequest) (res : ServerResponse) (w : World)
  : ServerResponse * World :=
  let repo := query_repo req in
  let cache_seconds := query_cache_seconds req in
  let res := setHeader (lit "Content-Type") (lit "image/svg+xml") res in
  match fetchStats (parseString repo) w with
  | (Return stats, w1) =>
      let cacheSeconds :=
        clampValue
          (parseInt (if query_truthy cache_seconds
                     then String_of_query cache_seconds
                     else num_to_string (Num FOUR_HOURS)))
          (Num FOUR_HOURS) (Num ONE_DAY) in
      let cacheSeconds :=
        if opt_truthy (CACHE_SECONDS env)
        then
          let n := parseInt (the_string (CACHE_SECONDS env)) in
          if num_truthy n then n else cacheSeconds
        else cacheSeconds in
      let res :=
        setHeader (lit "Cache-Control")
          (lit "max-age=" ++ half_to_string cacheSeconds ++
           lit ", s-maxage=" ++ num_to_string cacheSeconds ++
           lit ", stale-while-revalidate=" ++ int_to_string ONE_DAY) res in
      match json stats res with
      | (Return _, res) => (res, w1)
      | (Throw err, res) => on_error err res w1
      end
  | (Throw err, w1) => on_error err res w1
  end.

(** ** common.ts, the helpers the route does not call *)

(** The message of the engine when a method that is missing is called. *)
Definition split_not_a_function_message : jsstring :=
  lit "str.split is not a function".

(** [parseArray(str)]: a falsy argument gives the empty array, a string
    is split at its commas, and an array, which has no [split], fails. *)
Definition parseArray (str : QueryValue) : Result (list jsstring) :=
  if negb (query_truthy str) then Return []
  else
    match str with
    | QString s => Return (split s (lit ","))
    | _ => Throw (TypeError split_not_a_function_message)
    end.

(** ** Notions used to state the properties *)

(** No other unit folds like [c]. *)
Definition folds_alone (c : Z) : Prop :=
  forall x, Canonicalize x = Canonicalize c -> x = c.


(** The units an entity is written with besides the ampersand (the hash,
    the semicolon and the digits) and the backspace that [encodeHTML]
    removes. *)
Definition entity_syntax_units : list Z :=
  [8; 35; 59; 48; 49; 50; 51; 52; 53; 54; 55; 56; 57].

(** Every unit of the escaped class is directly followed by a hash. *)
Fixpoint escaped (t : jsstring) : Prop :=
  match t with
  | [] => True
  | c :: r => (entity_class c = true -> followed_by_hash r = true) /\ escaped r
  end.

(** Neither the first nor the last unit is white space. *)
Definition edge_clean (s : jsstring) : Prop :=
  (forall c r, s = c :: r -> is_white_space c = false) /\
  (forall a c, s = a ++ [c] -> is_white_space c = false).

(* ================================================================== *)
(** * Properties                                                       *)
(* ================================================================== *)

(** ** Strings and arrays *)

Lemma str_eqb_refl (s : jsstring) : str_eqb s s = true.
Proof.
  induction s as [|c s IH]; simpl; [reflexivity|].
  now rewrite Z.eqb_refl, IH.
Qed.

Lemma str_eqb_eq (a b : jsstring) : str_eqb a b = true <-> a = b.
Proof.
  split; [|intros ->; apply str_eqb_refl].
  revert b; induction a as [|x a IH]; intros [|y b]; simpl;
    try discriminate; [reflexivity|].
  intros H. apply andb_true_iff in H as [Hx Hab].
  apply Z.eqb_eq in Hx. apply IH in Hab. now subst.
Qed.

Lemma str_eqb_neq (a b : jsstring) : a <> b -> str_eqb a b = false.
Proof.
  intros H. destruct (str_eqb a b) eqn:E; [|reflexivity].
  apply str_eqb_eq in E. contradiction.
Qed.

Lemma str_truthy_iff (s : jsstring) : str_truthy s = true <-> s <> [].
Proof. destruct s; simpl; split; congruence. Qed.

Lemma str_truthy_app_r (a b : jsstring) :
  str_truthy b = true -> str_truthy (a ++ b) = true.
Proof. destruct a, b; simpl; congruence. Qed.

(** Splitting on the slash. *)

Lemma startsWith_slash (c : Z) (s : jsstring) :
  startsWith [47] (c :: s) = (c =? 47).
Proof. cbn [startsWith]. now rewrite andb_true_r, Z.eqb_sym. Qed.

Lemma split_go_slash_step (c : Z) (s cur : jsstring) :
  split_go [47] (c :: s) O cur
  = if c =? 47 then rev cur :: split_go [47] s O []
    else split_go [47] s O (c :: cur).
Proof. cbn [split_go]. now rewrite startsWith_slash. Qed.

Lemma split_go_slash_head (s cur : jsstring) :
  exists rest,
    split_go [47] s O cur = (rev cur ++ take_while not_slash s) :: rest.
Proof.
  revert cur; induction s as [|c s IH]; intros cur.
  - exists []. simpl. now rewrite app_nil_r.
  - rewrite split_go_slash_step. cbn [take_while]. unfold not_slash at 1.
    destruct (c =? 47) eqn:E; cbn [negb].
    + eexists. now rewrite app_nil_r.
    + destruct (IH (c :: cur)) as [rest Hrest]. exists rest.
      rewrite Hrest. cbn [rev]. now rewrite <- app_assoc.
Qed.

Lemma split_go_slash_first (a rest cur : jsstring) :
  ~ In 47 a ->
  split_go [47] (a ++ 47 :: rest) O cur
  = (rev cur ++ a) :: split_go [47] rest O [].
Proof.
  revert cur; induction a as [|c a IH]; intros cur Hin.
  - cbn [app]. rewrite split_go_slash_step, Z.eqb_refl.
    now rewrite app_nil_r.
  - cbn [app]. rewrite split_go_slash_step. destruct (c =? 47) eqn:E.
    + apply Z.eqb_eq in E. exfalso. apply Hin. now left.
    + rewrite IH; [|intros H; apply Hin; now right].
      cbn [rev]. now rewrite <- app_assoc.
Qed.

Lemma take_while_not_slash_all (r : jsstring) :
  ~ In 47 r -> take_while not_slash r = r.
Proof.
  induction r as [|c r IH]; intros Hin; [reflexivity|].
  cbn [take_while]. unfold not_slash at 1. destruct (c =? 47) eqn:E.
  - apply Z.eqb_eq in E. exfalso. apply Hin. now left.
  - cbn [negb]. f_equal. apply IH. intros H. apply Hin. now right.
Qed.

(** [slice], the indexed update and the filter of [wrapTextMultiline]. *)
Lemma slice0_length {A : Type} (a : list A) (n : Z) :
  0 <= n -> Z.of_nat (length (slice0 a n)) <= n.
Proof.
  intros Hn. unfold slice0. destruct (n <? 0) eqn:E; [lia|].
  pose proof (firstn_le_length (Z.to_nat n) a). lia.
Qed.

Lemma slice0_length_full {A : Type} (a : list A) (n : Z) :
  0 <= n -> n <= Z.of_nat (length a) -> length (slice0 a n) = Z.to_nat n.
Proof.
  intros Hn Hlen. unfold slice0. destruct (n <? 0) eqn:E; [lia|].
  apply firstn_length_le. lia.
Qed.

Lemma append_at_nat_last (a : list jsstring) (i : nat) (suffix : jsstring) :
  length a = S i ->
  exists init x, append_at_nat a i suffix = init ++ [x ++ suffix]
                 /\ length init = i.
Proof.
  revert i; induction a as [|y a IH]; intros i Hlen; [discriminate|].
  destruct i as [|i]; simpl in *.
  - destruct a; [|discriminate]. exists [], y. now split.
  - destruct (IH i) as (init & x & Heq & Hl); [lia|].
    exists (y :: init), x. rewrite Heq. simpl. now rewrite Hl.
Qed.

Lemma filter_truthy_nonempty (l : list jsstring) :
  Forall (fun line => line <> []) (filter str_truthy l).
Proof.
  apply Forall_forall. intros x Hx. apply filter_In in Hx as [_ Hx].
  now apply str_truthy_iff.
Qed.

Lemma filter_length_le {A : Type} (f : A -> bool) (l : list A) :
  (length (filter f l) <= length l)%nat.
Proof.
  induction l as [|x l IH]; simpl; [lia|]. destruct (f x); simpl; lia.
Qed.

(** ** Numbers *)

Lemma uint_units_head (d : Decimal.uint) :
  d <> Decimal.Nil ->
  exists c rest, uint_units d = c :: rest /\ is_digit c = true.
Proof.
  destruct d; intros H; try congruence; simpl; eexists; eexists;
    (split; [reflexivity|reflexivity]).
Qed.

Lemma digits_of_head (z : Z) :
  exists c rest, digits_of z = c :: rest /\ is_digit c = true.
Proof.
  destruct z as [|p|p]; simpl; try (exists 48, []; now split).
  apply uint_units_head. apply DecimalPos.Unsigned.to_uint_nonnil.
Qed.

Lemma is_digit_not_space (c : Z) :
  is_digit c = true -> is_white_space c = false /\ c <> 45 /\ c <> 43.
Proof.
  unfold is_digit, is_white_space. intros H.
  apply andb_true_iff in H as [H1 H2].
  apply Z.leb_le in H1. apply Z.leb_le in H2.
  split; [|lia].
  repeat match goal with
         | |- context [?a =? ?b] =>
             replace (a =? b) with false by (symmetry; apply Z.eqb_neq; lia)
         end.
  replace (c <=? 13) with false by (symmetry; apply Z.leb_gt; lia).
  replace (8192 <=? c) with false by (symmetry; apply Z.leb_gt; lia).
  now rewrite andb_false_r.
Qed.

Lemma round_to_double_number (z : Z) : isNaN (round_to_double z) = false.
Proof.
  unfold round_to_double. destruct (Z.abs z <? 2 ^ 53); [reflexivity|].
  cbv zeta.
  match goal with |- context [if ?b then Infinity _ else _] =>
    destruct b end; reflexivity.
Qed.

Lemma parseInt_digits (c : Z) (rest : jsstring) :
  is_digit c = true -> isNaN (parseInt (c :: rest)) = false.
Proof.
  intros Hd. destruct (is_digit_not_space c Hd) as (Hs & Hm & Hp).
  unfold parseInt. cbn [drop_while]. rewrite Hs.
  unfold read_sign.
  apply Z.eqb_neq in Hm. apply Z.eqb_neq in Hp. rewrite Hm, Hp.
  cbn [snd fst take_while]. rewrite Hd. apply round_to_double_number.
Qed.

Lemma parseInt_minus_digits (c : Z) (rest : jsstring) :
  is_digit c = true -> isNaN (parseInt (45 :: c :: rest)) = false.
Proof.
  intros Hd. unfold parseInt. cbn [drop_while].
  change (is_white_space 45) with false. cbv iota.
  unfold read_sign. rewrite Z.eqb_refl.
  cbn [snd fst take_while]. rewrite Hd. apply round_to_double_number.
Qed.

Lemma parseInt_int_to_string (z : Z) :
  isNaN (parseInt (int_to_string z)) = false.
Proof.
  unfold int_to_string. destruct (z <? 0).
  - destruct (digits_of_head (- z)) as (c & rest & -> & Hd).
    now apply parseInt_minus_digits.
  - destruct (digits_of_head z) as (c & rest & -> & Hd).
    now apply parseInt_digits.
Qed.

Lemma clampValue_Num (z lo hi : Z) :
  clampValue (Num z) (Num lo) (Num hi) = Num (Z.max lo (Z.min z hi)).
Proof.
  unfold clampValue. cbn [num_to_string].
  now rewrite parseInt_int_to_string.
Qed.

Lemma clampValue_NaN (lo hi : jsnum) : clampValue NaN lo hi = lo.
Proof. reflexivity. Qed.

Lemma clampValue_Infinity (negative : bool) (lo hi : jsnum) :
  clampValue (Infinity negative) lo hi = lo.
Proof. destruct negative; reflexivity. Qed.

(** ** Effects *)

Lemma logger_error_spec (entry : LogEntry) (w : World) :
  exists w', logger_error entry w = (Return tt, w') /\ sent w' = sent w.
Proof.
  unfold logger_error.
  destruct (NODE_ENV env) as [v|]; [destruct (str_eqb v (lit "test"))|];
    eexists; split; reflexivity.
Qed.

Lemma own_property_set_assoc (key value : jsstring)
    (h : list (jsstring * jsstring)) :
  own_property (set_assoc key value h) key = Some value.
Proof.
  induction h as [|[k v] h IH]; cbn [set_assoc own_property].
  - now rewrite str_eqb_refl.
  - destruct (str_eqb k key) eqn:E; cbn [own_property].
    + now rewrite str_eqb_refl.
    + now rewrite E.
Qed.

Lemma own_property_set_assoc_other (key other value : jsstring)
    (h : list (jsstring * jsstring)) :
  key <> other ->
  own_property (set_assoc other value h) key = own_property h key.
Proof.
  intros Hne. induction h as [|[k v] h IH]; cbn [set_assoc own_property].
  - now rewrite (str_eqb_neq other key) by congruence.
  - destruct (str_eqb k other) eqn:E; cbn [own_property].
    + apply str_eqb_eq in E. subst k.
      now rewrite (str_eqb_neq other key) by congruence.
    + destruct (str_eqb k key); [reflexivity|exact IH].
Qed.



(** The catch block: the card, the header that forbids caching, and at
    most one new line on the console. *)
Lemma on_error_spec (err : JsError) (res : ServerResponse) (w : World) :
  getHeader (lit "Cache-Control") (fst (on_error err res w))
  = Some (lit "no-cache, no-store, must-revalidate") /\
  body (fst (on_error err res w))
  = SentBody (renderError (err_message err)
                          (String_of (err_secondaryMessage err))) /\
  sent (snd (on_error err res w)) = sent w.
Proof.
  unfold on_error. cbv zeta. cbn [fst snd].
  destruct (logger_error_spec (console_error_err err) w) as (w2 & Hlog & Hs).
  rewrite Hlog. cbn [snd]. repeat split; [|exact Hs].
  unfold send, getHeader, setHeader. cbn [headers].
  apply own_property_set_assoc.
Qed.

(** The handler when [fetchStats] throws. *)
Lemma handler_fetch_failed (req : NextApiRequest) (res0 : ServerResponse)
    (w w1 : World) (err : JsError) :
  fetchStats (parseString (query_repo req)) w = (Throw err, w1) ->
  handler req res0 w
  = on_error err (setHeader (lit "Content-Type") (lit "image/svg+xml") res0)
      w1.
Proof. intros H. unfold handler. now rewrite H. Qed.


(** What [fetchStats] does once the retrier has returned a response with
    an [errors] field. *)
Lemma fetchStats_errors (repo : jsstring) (w w' : World)
    (res : AxiosResponse) (errs : list GqlError) :
  str_truthy repo = true ->
  statsFetcher repo w = (Return res, w') ->
  errors (data res) = Some errs ->
  exists w'',
    sent w'' = sent w' /\
    fetchStats repo w =
    match errs with
    | [] => (Throw (TypeError undefined_type_message), w'')
    | e0 :: _ =>
        if opt_eqb (gql_type e0) (lit "NOT_FOUND")
        then (Throw (new_CustomError
                       (Some (or_default (gql_message e0)
                                         (lit "Could not fetch user.")))
                       USER_NOT_FOUND), w'')
        else if opt_truthy (gql_message e0)
        then (Throw (new_CustomError
                       (nth_error
                          (wrapTextMultiline (the_string (gql_message e0))
                                             90 1) 0)
                       (statusText res)), w'')
        else (Throw (new_CustomError
                       (Some (lit "Something went wrong while trying to retrieve the stats data using the GraphQL API."))
                       GRAPHQL_ERROR), w'')
    end.
Proof.
  intros Hrepo Hstats Herrs.
  destruct (logger_error_spec (console_error_errors errs) w')
    as (w'' & Hlog & Hsent).
  exists w''. split; [exact Hsent|].
  unfold fetchStats. rewrite Hrepo. cbn [negb].
  unfold bind. rewrite Hstats. rewrite Herrs. rewrite Hlog.
  destruct errs as [|e0 rest]; [reflexivity|].
  destruct (opt_eqb (gql_type e0) (lit "NOT_FOUND")); [reflexivity|].
  destruct (opt_truthy (gql_message e0)); reflexivity.
Qed.

Lemma opt_truthy_some (m : jsstring) :
  m <> [] -> opt_truthy (Some m) = true.
Proof. intros H. now apply str_truthy_iff. Qed.

Lemma opt_truthy_absent (o : option jsstring) :
  o = None \/ o = Some [] -> opt_truthy o = false.
Proof. intros [-> | ->]; reflexivity. Qed.

Lemma or_default_some (m d : jsstring) :
  m <> [] -> or_default (Some m) d = m.
Proof. intros H. destruct m; [congruence|reflexivity]. Qed.

Lemma or_default_absent (o : option jsstring) (d : jsstring) :
  o = None \/ o = Some [] -> or_default o d = d.
Proof. intros [-> | ->]; reflexivity. Qed.

Lemma opt_eqb_neq (o : option jsstring) (s : jsstring) :
  o <> Some s -> opt_eqb o s = false.
Proof.
  destruct o as [v|]; intros H; [|reflexivity].
  apply str_eqb_neq. congruence.
Qed.

(** ** The text wrapper *)

Lemma wrapTextMultiline_length (text : jsstring) (width maxLines : Z) :
  1 <= maxLines ->
  Z.of_nat (length (wrapTextMultiline text width maxLines)) <= maxLines.
Proof.
  intros Hm. unfold wrapTextMultiline.
  set (wrapped := wrapped_lines text width).
  set (lines := slice0 (map trim wrapped) maxLines).
  assert (Hlines : Z.of_nat (length lines) <= maxLines)
    by (apply slice0_length; lia).
  destruct (Z.of_nat (length wrapped) >? maxLines) eqn:E.
  - apply Z.gtb_lt in E.
    assert (Hfull : length lines = Z.to_nat maxLines).
    { apply slice0_length_full; [lia|]. rewrite length_map. lia. }
    unfold append_at. destruct (maxLines - 1 <? 0) eqn:E1; [lia|].
    destruct (append_at_nat_last lines (Z.to_nat (maxLines - 1)) (lit "..."))
      as (init & x & Heq & Hinit); [lia|].
    rewrite Heq.
    pose proof (filter_length_le str_truthy (init ++ [x ++ lit "..."])) as Hf.
    rewrite length_app in Hf. cbn [length] in Hf. lia.
  - pose proof (filter_length_le str_truthy lines). lia.
Qed.

Lemma wrapTextMultiline_nonempty (text : jsstring) (width maxLines : Z) :
  Forall (fun line => line <> []) (wrapTextMultiline text width maxLines).
Proof. apply filter_truthy_nonempty. Qed.

Lemma wrapTextMultiline_ellipsis (text : jsstring) (width maxLines : Z) :
  1 <= maxLines ->
  Z.of_nat (length (wrapped_lines text width)) > maxLines ->
  exists init line,
    wrapTextMultiline text width maxLines = init ++ [line ++ lit "..."].
Proof.
  intros Hm Hlong. unfold wrapTextMultiline.
  set (wrapped := wrapped_lines text width) in *.
  set (lines := slice0 (map trim wrapped) maxLines).
  replace (Z.of_nat (length wrapped) >? maxLines) with true
    by (symmetry; apply Z.gtb_lt; lia).
  assert (Hfull : length lines = Z.to_nat maxLines).
  { apply slice0_length_full; [lia|]. rewrite length_map. lia. }
  unfold append_at. destruct (maxLines - 1 <? 0) eqn:E1; [lia|].
  destruct (append_at_nat_last lines (Z.to_nat (maxLines - 1)) (lit "..."))
    as (init & x & Heq & Hinit); [lia|].
  rewrite Heq, filter_app. cbn [filter].
  rewrite str_truthy_app_r by reflexivity.
  now exists (filter str_truthy init), x.
Qed.

(** ** The error card *)

Lemma renderError_shape :
  exists pre mid post,
    forall message secondaryMessage,
      renderError message secondaryMessage
      = pre ++ encodeHTML message ++ mid ++ secondaryMessage ++ post.
Proof.
  eexists (join [10]
    [ [];
      qlit "    <svg width=`" ++ ERROR_CARD_LENGTH ++
        qlit "` height=`120` viewBox=`0 0 " ++ ERROR_CARD_LENGTH ++
        qlit " 120` fill=`none` xmlns=`http://www.w3.org/2000/svg`>";
      qlit "    <style>";
      qlit "    .text { font: 600 16px 'Segoe UI', Ubuntu, Sans-Serif; fill: #2F80ED }";
      qlit "    .small { font: 600 12px 'Segoe UI', Ubuntu, Sans-Serif; fill: #252525 }";
      qlit "    .gray { fill: #858585 }";
      qlit "    </style>";
      qlit "    <rect x=`0.5` y=`0.5` width=`" ++ ERROR_CARD_LENGTH_minus_1 ++
        qlit "` height=`99%` rx=`4.5` fill=`#FFFEFE` stroke=`#E4E2E2`/>";
      qlit "    <text x=`25` y=`45` class=`text`>Something went wrong! file an issue at moonrailgun/github-repository-card</text>";
      qlit "    <text data-testid=`message` x=`25` y=`55` class=`text small`>";
      qlit "      <tspan x=`25` dy=`18`>" ]).
  exists (qlit "</tspan>" ++ [10] ++ qlit "      <tspan x=`25` dy=`18` class=`gray`>").
  exists (qlit "</tspan>" ++ [10] ++ qlit "    </text>" ++ [10] ++
          qlit "    </svg>" ++ [10] ++ qlit "  ").
  intros message secondaryMessage.
  unfold renderError. cbn [join]. rewrite <- !app_assoc. reflexivity.
Qed.

(* ================================================================== *)
(** * The claims of the specification                                  *)
(* ================================================================== *)

(** C1 (as the code has it).  When the response carries an [errors] array
    whose first entry has type NOT_FOUND, [fetchStats] fails with a
    [CustomError] of type USER_NOT_FOUND; its message is the message of the
    payload when that is present and not empty, and otherwise the default
    text, which reads: Could not fetch user. *)
Theorem C1_not_found_error
    (repo : jsstring) (w w' : World) (res : AxiosResponse)
    (e0 : GqlError) (rest : list GqlError) :
  str_truthy repo = true ->
  statsFetcher repo w = (Return res, w') ->
  errors (data res) = Some (e0 :: rest) ->
  gql_type e0 = Some (lit "NOT_FOUND") ->
  exists e w'',
    fetchStats repo w = (Throw e, w'') /\
    err_type e = Some USER_NOT_FOUND /\
    err_secondaryMessage e
    = VString (lit "Make sure the provided username is not an organization") /\
    (forall m, gql_message e0 = Some m -> m <> [] -> err_message e = m) /\
    (gql_message e0 = None \/ gql_message e0 = Some [] ->
     err_message e = lit "Could not fetch user.").
Proof.
  intros Hrepo Hstats Herrs Htype.
  destruct (fetchStats_errors repo w w' res _ Hrepo Hstats Herrs)
    as (w'' & _ & Hrun).
  rewrite Htype in Hrun. cbn [opt_eqb] in Hrun.
  rewrite str_eqb_refl in Hrun.
  eexists; exists w''. split; [exact Hrun|].
  split; [reflexivity|]. split; [reflexivity|]. split.
  - intros m Hm Hne. rewrite Hm. cbn [new_CustomError err_message].
    now apply or_default_some.
  - intros Habs. cbn [new_CustomError err_message].
    now apply or_default_absent.
Qed.

(** C3 (as the code has it).  The identifier is split on every slash and
    the first two pieces are kept: the owner is the text before the first
    slash, and the name is the text between the first slash and the second
    one (the whole remainder when there is no second slash).  For an
    identifier owner/name whose two parts are not empty and hold no slash,
    the variables are exactly these two parts, so neither is empty. *)
Theorem C3_owner_and_name (o r : jsstring) :
  ~ In 47 o ->
  owner (build_variables (o ++ lit "/" ++ r)) = Some o /\
  name (build_variables (o ++ lit "/" ++ r)) = Some (take_while not_slash r) /\
  (~ In 47 r -> name (build_variables (o ++ lit "/" ++ r)) = Some r) /\
  (~ In 47 r -> o <> [] -> r <> [] ->
   exists vo vn,
     owner (build_variables (o ++ lit "/" ++ r)) = Some vo /\
     name (build_variables (o ++ lit "/" ++ r)) = Some vn /\
     vo <> [] /\ vn <> []).
Proof.
  intros Ho.
  assert (Hsplit : exists tl,
             split (o ++ lit "/" ++ r) (lit "/")
             = o :: take_while not_slash r :: tl).
  { unfold split. change (lit "/") with [47]. cbn [app].
    rewrite split_go_slash_first by exact Ho.
    destruct (split_go_slash_head r []) as [tl Htl].
    exists tl. now rewrite Htl. }
  destruct Hsplit as [tl Hsplit].
  assert (Hown : owner (build_variables (o ++ lit "/" ++ r)) = Some o)
    by (unfold build_variables; now rewrite Hsplit).
  assert (Hname : name (build_variables (o ++ lit "/" ++ r))
                  = Some (take_while not_slash r))
    by (unfold build_variables; now rewrite Hsplit).
  split; [exact Hown|]. split; [exact Hname|]. split.
  - intros Hr. now rewrite Hname, take_while_not_slash_all.
  - intros Hr Hone Hrne. exists o, r. repeat split; try assumption.
    now rewrite Hname, take_while_not_slash_all.
Qed.


(** C5.  For the empty identifier [fetchStats] fails with a
    [MissingParamError] that names the repo parameter, and the world is
    left as it was: no request has gone out.  The handler then answers
    with the error card made from that error, marks it as not cacheable,
    and has sent no request either. *)
Theorem C5_missing_repo
    (req : NextApiRequest) (res0 : ServerResponse) (w : World) :
  parseString (query_repo req) = [] ->
  let missing :=
    lit "Missing params " ++ dq ++ lit "repo" ++ dq ++
    lit " make sure you pass the parameters in URL" in
  fetchStats [] w
  = (Throw (MissingParamError [lit "repo"] None missing), w) /\
  sent (snd (handler req res0 w)) = sent w /\
  getHeader (lit "Cache-Control") (fst (handler req res0 w))
  = Some (lit "no-cache, no-store, must-revalidate") /\
  body (fst (handler req res0 w))
  = SentBody (renderError missing (lit "undefined")).
Proof.
  intros Hempty missing.
  assert (Hrun : fetchStats [] w
                 = (Throw (MissingParamError [lit "repo"] None missing), w))
    by reflexivity.
  split; [exact Hrun|].
  rewrite <- Hempty in Hrun.
  rewrite (handler_fetch_failed req res0 w w _ Hrun).
  destruct (on_error_spec (MissingParamError [lit "repo"] None missing)
              (setHeader (lit "Content-Type") (lit "image/svg+xml") res0) w)
    as (Hhdr & Hbody & Hsent).
  split; [exact Hsent|]. split; [exact Hhdr|exact Hbody].
Qed.

(** C6 (as the code has it).  When the response has no [errors] field,
    [fetchStats] raises nothing and returns the response of the retrier
    unchanged. *)
Theorem C6_absent_errors_pass_through
    (repo : jsstring) (w w' : World) (res : AxiosResponse) :
  str_truthy repo = true ->
  statsFetcher repo w = (Return res, w') ->
  errors (data res) = None ->
  fetchStats repo w = (Return res, w').
Proof.
  intros Hrepo Hstats Herrs.
  unfold fetchStats. rewrite Hrepo. cbn [negb].
  unfold bind. rewrite Hstats, Herrs. reflexivity.
Qed.

(** C8.  For a width of at least 1 and at least 1 line allowed,
    [wrapTextMultiline] returns at most that many lines, none of them
    empty, and when the wrapped text has more lines than allowed the last
    line returned ends with three dots. *)
Theorem C8_wrapTextMultiline_lines (text : jsstring) (width maxLines : Z) :
  1 <= width ->
  1 <= maxLines ->
  Z.of_nat (length (wrapTextMultiline text width maxLines)) <= maxLines /\
  Forall (fun line => line <> []) (wrapTextMultiline text width maxLines) /\
  (Z.of_nat (length (wrapped_lines text width)) > maxLines ->
   exists init line,
     wrapTextMultiline text width maxLines = init ++ [line] /\
     endsWith line (lit "...")).
Proof.
  intros _ Hm. split; [now apply wrapTextMultiline_length|].
  split; [apply wrapTextMultiline_nonempty|].
  intros Hlong.
  destruct (wrapTextMultiline_ellipsis text width maxLines Hm Hlong)
    as (init & line & Heq).
  exists init, (line ++ lit "..."). split; [exact Heq|]. now exists line.
Qed.

(** C9.  For bounds min <= max, [clampValue] returns min for a number that
    does not read as one (NaN), and for every other number n it returns
    max(min, min(n, max)), which lies between the bounds. *)
Theorem C9_clampValue (lo hi : Z) :
  lo <= hi ->
  (forall n, isNaN (parseInt (num_to_string n)) = true ->
             clampValue n (Num lo) (Num hi) = Num lo) /\
  clampValue NaN (Num lo) (Num hi) = Num lo /\
  (forall z, isNaN (parseInt (num_to_string (Num z))) = false) /\
  (forall z,
     clampValue (Num z) (Num lo) (Num hi) = Num (Z.max lo (Z.min z hi)) /\
     lo <= Z.max lo (Z.min z hi) <= hi).
Proof.
  intros Hle. split; [|split; [|split]].
  - intros n Hn. unfold clampValue. now rewrite Hn.
  - reflexivity.
  - intros z. apply parseInt_int_to_string.
  - intros z. split; [apply clampValue_Num|lia].
Qed.

(** X23.  A [CustomError] built with a type that is neither one of the
    four keys of the table of secondary messages nor a name that the
    table inherits from [Object.prototype] has that type as its secondary
    message.  In particular, when the first GraphQL error has a message
    and no NOT_FOUND type, and the status text of the response is such a
    type, the error card shows the status text as its secondary line. *)
Theorem X23_unknown_type_is_secondary_message (type : jsstring) :
  type <> MAX_RETRY ->
  type <> USER_NOT_FOUND ->
  type <> GRAPHQL_ERROR ->
  type <> lit "WAKATIME_USER_NOT_FOUND" ->
  ~ In type Object_prototype_keys ->
  (forall message,
     err_secondaryMessage (new_CustomError message type) = VString type) /\
  (forall (req : NextApiRequest) (res0 : ServerResponse) (w w' : World)
          (res : AxiosResponse) (e0 : GqlError) (rest : list GqlError)
          (m : jsstring),
     str_truthy (parseString (query_repo req)) = true ->
     statsFetcher (parseString (query_repo req)) w = (Return res, w') ->
     errors (data res) = Some (e0 :: rest) ->
     gql_type e0 <> Some (lit "NOT_FOUND") ->
     gql_message e0 = Some m -> m <> [] ->
     statusText res = type ->
     body (fst (handler req res0 w))
     = SentBody (renderError
                   (match wrapTextMultiline m 90 1 with
                    | line :: _ => line
                    | [] => []
                    end)
                   type)).
Proof.
  intros H1 H2 H3 H4 Hproto.
  assert (Hsec : forall message,
            err_secondaryMessage (new_CustomError message type)
            = VString type).
  { intros message. unfold new_CustomError. cbn [err_secondaryMessage].
    assert (Hget : get_property SECONDARY_ERROR_MESSAGES type = VUndefined).
    { unfold get_property, SECONDARY_ERROR_MESSAGES. cbn [own_property].
      rewrite (str_eqb_neq (lit "MAX_RETRY") type)
        by (intros E; apply H1; now rewrite <- E).
      rewrite (str_eqb_neq (lit "USER_NOT_FOUND") type)
        by (intros E; apply H2; now rewrite <- E).
      rewrite (str_eqb_neq (lit "GRAPHQL_ERROR") type)
        by (intros E; apply H3; now rewrite <- E).
      rewrite (str_eqb_neq (lit "WAKATIME_USER_NOT_FOUND") type)
        by (intros E; apply H4; now rewrite <- E).
      destruct (existsb (str_eqb type) Object_prototype_keys) eqn:E;
        [|reflexivity].
      apply existsb_exists in E as (k & Hin & Hk).
      apply str_eqb_eq in Hk. subst k. contradiction. }
    now rewrite Hget. }
  split; [exact Hsec|].
  intros req res0 w w' res e0 rest m Hrepo Hstats Herrs Htype Hm Hne Hst.
  destruct (fetchStats_errors _ w w' res _ Hrepo Hstats Herrs)
    as (w'' & _ & Hrun).
  rewrite (opt_eqb_neq _ _ Htype), Hm, (opt_truthy_some m Hne) in Hrun.
  cbn [the_string] in Hrun.
  rewrite (handler_fetch_failed req res0 w w'' _ Hrun).
  destruct (on_error_spec
              (new_CustomError (nth_error (wrapTextMultiline m 90 1) 0)
                               (statusText res))
              (setHeader (lit "Content-Type") (lit "image/svg+xml") res0) w'')
    as (_ & Hbody & _).
  rewrite Hbody, Hst, Hsec. cbn [String_of]. f_equal. f_equal.
  unfold new_CustomError. cbn [err_message].
  now destruct (wrapTextMultiline m 90 1).
Qed.

(* ================================================================== *)
(** * Further properties of the code                                   *)
(* ================================================================== *)

(** ** Splitting at one unit and joining again *)

Lemma split_go_unit_step (d c : Z) (s cur : jsstring) :
  split_go [d] (c :: s) O cur
  = if c =? d then rev cur :: split_go [d] s O []
    else split_go [d] s O (c :: cur).
Proof.
  cbn [split_go startsWith length Nat.pred].
  now rewrite andb_true_r, Z.eqb_sym.
Qed.

Lemma split_go_unit_cons (d : Z) (s cur : jsstring) :
  exists piece pieces, split_go [d] s O cur = piece :: pieces.
Proof.
  revert cur; induction s as [|c s IH]; intros cur.
  - now exists (rev cur), [].
  - rewrite split_go_unit_step. destruct (c =? d); [eauto|apply IH].
Qed.

Lemma join_cons2 (sep x y : jsstring) (a : list jsstring) :
  join sep (x :: y :: a) = x ++ sep ++ join sep (y :: a).
Proof. reflexivity. Qed.


Lemma split_go_unit_free (d : Z) (s cur : jsstring) :
  ~ In d cur -> Forall (fun piece => ~ In d piece) (split_go [d] s O cur).
Proof.
  revert cur; induction s as [|c s IH]; intros cur Hcur.
  - constructor; [|constructor]. now rewrite <- in_rev.
  - rewrite split_go_unit_step. destruct (c =? d) eqn:E.
    + constructor; [now rewrite <- in_rev|]. apply IH. intros [].
    + apply IH. intros [Hc | Hin]; [|contradiction].
      apply Z.eqb_neq in E. congruence.
Qed.

Lemma split_go_unit_length (d : Z) (s cur : jsstring) :
  length (split_go [d] s O cur) = S (count_occ Z.eq_dec s d).
Proof.
  revert cur; induction s as [|c s IH]; intros cur; [reflexivity|].
  rewrite split_go_unit_step. cbn [count_occ].
  destruct (Z.eq_dec c d) as [-> | Hne].
  - rewrite Z.eqb_refl. cbn [length]. now rewrite IH.
  - apply Z.eqb_neq in Hne. rewrite Hne. apply IH.
Qed.

Lemma split_go_unit_whole (d : Z) (s cur : jsstring) :
  ~ In d s -> split_go [d] s O cur = [rev cur ++ s].
Proof.
  revert cur; induction s as [|c s IH]; intros cur Hs.
  - cbn [split_go]. now rewrite app_nil_r.
  - rewrite split_go_unit_step. destruct (c =? d) eqn:E.
    + apply Z.eqb_eq in E. exfalso. apply Hs. now left.
    + rewrite IH by (intros H; apply Hs; now right).
      cbn [rev]. now rewrite <- app_assoc.
Qed.


(** X2.  For a string that is not empty, [parseArray] returns one piece
    more than the string has commas, and no piece holds a comma. *)
Theorem X2_parseArray_pieces (s : jsstring) :
  s <> [] ->
  exists pieces,
    parseArray (QString s) = Return pieces /\
    length pieces = S (count_occ Z.eq_dec s 44) /\
    Forall (fun piece => ~ In 44 piece) pieces.
Proof.
  intros Hs. unfold parseArray. destruct s as [|c s]; [congruence|].
  cbn [query_truthy str_truthy negb]. eexists. split; [reflexivity|].
  unfold split. change (lit ",") with [44]. split.
  - apply split_go_unit_length.
  - apply split_go_unit_free. intros [].
Qed.

(** X3.  An identifier without a slash is taken whole as the owner and
    leaves the name undefined. *)
Theorem X3_build_variables_no_slash (repoFullname : jsstring) :
  ~ In 47 repoFullname ->
  build_variables repoFullname = mkRepoVariables (Some repoFullname) None.
Proof.
  intros Hs. unfold build_variables, split. change (lit "/") with [47].
  now rewrite split_go_unit_whole.
Qed.

(** X4.  The owner is always defined, and neither the owner nor the name
    built from an identifier ever holds a slash. *)
Theorem X4_build_variables_slash_free (repoFullname : jsstring) :
  (exists o, owner (build_variables repoFullname) = Some o /\ ~ In 47 o) /\
  (forall n, name (build_variables repoFullname) = Some n -> ~ In 47 n).
Proof.
  unfold build_variables, split. change (lit "/") with [47].
  pose proof (split_go_unit_free 47 repoFullname [] (fun H => H)) as Hfree.
  destruct (split_go_unit_cons 47 repoFullname []) as (x & a & Hxa).
  rewrite Hxa in *. cbn [owner name nth_error].
  inversion Hfree as [|? ? Hx Ha]; subst. split.
  - now exists x.
  - intros n Hn. destruct a as [|y a]; [discriminate|].
    cbn [nth_error] in Hn. injection Hn as <-.
    now inversion Ha.
Qed.

(** ** Escaping *)

(** Membership in a list that is written out. *)
Ltac in_list := cbn [In]; repeat first [left; reflexivity | right].

Lemma ci_in_range_true (ch lo : Z) (n : nat) :
  ci_in_range ch lo n = true ->
  exists a, lo <= a < lo + Z.of_nat n /\ ci_eq a ch = true.
Proof.
  revert lo; induction n as [|n IH]; intros lo H; [discriminate|].
  cbn [ci_in_range] in H. apply orb_true_iff in H as [H | H].
  - exists lo. split; [lia|exact H].
  - destruct (IH _ H) as (a & Ha & Hc). exists a. split; [lia|exact Hc].
Qed.

Lemma ci_eq_alone (c x : Z) :
  folds_alone c -> ci_eq c x = true -> x = c.
Proof.
  intros Hc H. apply Z.eqb_eq in H. apply Hc. now symmetry.
Qed.

Lemma ci_eq_alone_r (c x : Z) :
  folds_alone c -> ci_eq x c = true -> x = c.
Proof. intros Hc H. apply Z.eqb_eq in H. now apply Hc. Qed.

Lemma entity_class_outside (c : Z) :
  folds_alone c -> c < 160 -> c <> 60 -> c <> 62 -> c <> 38 ->
  entity_class c = false.
Proof.
  intros Hc Hlt H60 H62 H38.
  destruct (entity_class c) eqn:E; [exfalso|reflexivity].
  unfold entity_class in E.
  remember (Z.to_nat (39321 - 160 + 1)) as n eqn:Hn.
  assert (Hsize : Z.of_nat n = 39162)
    by (rewrite Hn, Z2Nat.id by lia; reflexivity).
  clear Hn.
  apply orb_true_iff in E as [E | E];
    [|apply (ci_eq_alone_r c _ Hc) in E; congruence].
  apply orb_true_iff in E as [E | E];
    [|apply (ci_eq_alone_r c _ Hc) in E; congruence].
  apply orb_true_iff in E as [E | E];
    [|apply (ci_eq_alone_r c _ Hc) in E; congruence].
  apply ci_in_range_true in E as (a & Ha & E).
  apply (ci_eq_alone_r c _ Hc) in E. lia.
Qed.

Lemma entity_class_listed (c : Z) :
  c = 60 \/ c = 62 \/ c = 38 -> entity_class c = true.
Proof.
  intros Hc. unfold entity_class.
  generalize (ci_in_range c 160 (Z.to_nat (39321 - 160 + 1))). intros b.
  unfold ci_eq. destruct Hc as [-> | [-> | ->]]; rewrite Z.eqb_refl;
    destruct b; cbn [orb]; rewrite ?orb_true_r; reflexivity.
Qed.

Lemma not_backspace (c : Z) :
  folds_alone 8 -> c <> 8 -> ci_eq 8 c = false.
Proof.
  intros H8 Hc. destruct (ci_eq 8 c) eqn:E; [|reflexivity].
  apply (ci_eq_alone 8 c H8) in E. contradiction.
Qed.

Lemma uint_units_digits (d : Decimal.uint) :
  Forall (fun u => 48 <= u <= 57) (uint_units d).
Proof. induction d; cbn [uint_units]; constructor; (lia || assumption). Qed.

Lemma int_to_string_digits (z : Z) :
  0 <= z -> Forall (fun u => 48 <= u <= 57) (int_to_string z).
Proof.
  intros Hz. unfold int_to_string.
  replace (z <? 0) with false by (symmetry; apply Z.ltb_ge; lia).
  destruct z as [|q|q]; cbn [digits_of];
    [repeat constructor; lia|apply uint_units_digits|lia].
Qed.

Lemma filter_same {A : Type} (f : A -> bool) (l : list A) :
  Forall (fun x => f x = true) l -> filter f l = l.
Proof.
  induction 1 as [|x l Hx _ IH]; [reflexivity|].
  cbn [filter]. now rewrite Hx, IH.
Qed.

Lemma filter_twice {A : Type} (f : A -> bool) (l : list A) :
  filter f (filter f l) = filter f l.
Proof.
  apply filter_same, Forall_forall. intros x Hx.
  now apply filter_In in Hx.
Qed.

Lemma escaped_app_plain (a t : jsstring) :
  Forall (fun u => entity_class u = false) a -> escaped t -> escaped (a ++ t).
Proof.
  induction 1 as [|u a Hu _ IH]; intros Ht; [exact Ht|].
  cbn [app escaped]. split; [congruence|now apply IH].
Qed.

Lemma escaped_fixed (t : jsstring) : escaped t -> encode_entities t = t.
Proof.
  induction t as [|c r IH]; intros Ht; [reflexivity|].
  destruct Ht as [Hc Hr]. cbn [encode_entities].
  destruct (entity_class c) eqn:E; cbn [andb].
  - rewrite (Hc eq_refl). cbn [negb]. now rewrite IH.
  - now rewrite IH.
Qed.

(** The text of an entity passes the removal of backspaces unchanged and
    is escaped in front of an escaped text. *)
Lemma entity_text (c : Z) (t : jsstring) :
  (forall u, In u entity_syntax_units -> folds_alone u) ->
  0 <= c ->
  filter (fun u => negb (ci_eq 8 u)) (lit "&#" ++ int_to_string c ++ lit ";")
  = lit "&#" ++ int_to_string c ++ lit ";" /\
  (escaped t -> escaped (lit "&#" ++ int_to_string c ++ lit ";" ++ t)).
Proof.
  intros Hsyn Hc.
  assert (H8 : folds_alone 8) by (apply Hsyn; in_list).
  assert (Hdig : forall u, 48 <= u <= 57 -> folds_alone u).
  { intros u Hu. apply Hsyn.
    assert (Hcases : u = 48 \/ u = 49 \/ u = 50 \/ u = 51 \/ u = 52 \/
                     u = 53 \/ u = 54 \/ u = 55 \/ u = 56 \/ u = 57) by lia.
    repeat destruct Hcases as [-> | Hcases]; try subst u; in_list. }
  assert (H35 : folds_alone 35) by (apply Hsyn; in_list).
  assert (H59 : folds_alone 59) by (apply Hsyn; in_list).
  pose proof (int_to_string_digits c Hc) as Hds.
  split.
  - apply filter_same. change (lit "&#") with [38; 35].
    change (lit ";") with [59]. cbn [app].
    constructor; [now rewrite not_backspace|].
    constructor; [now rewrite not_backspace|].
    apply Forall_app. split.
    + eapply Forall_impl; [|exact Hds]. intros u Hu. cbv beta in *.
      rewrite not_backspace; [reflexivity|exact H8|lia].
    + constructor; [now rewrite not_backspace|constructor].
  - intros Ht. change (lit "&#") with [38; 35]. change (lit ";") with [59].
    cbn [app escaped]. split.
    + intros _. cbn [followed_by_hash]. apply Z.eqb_refl.
    + replace (int_to_string c ++ 59 :: t)
        with ((int_to_string c ++ [59]) ++ t) by now rewrite <- app_assoc.
      split.
      * intros E. rewrite entity_class_outside in E;
          [discriminate|exact H35|lia..].
      * apply escaped_app_plain; [|exact Ht]. apply Forall_app. split.
        -- eapply Forall_impl; [|exact Hds]. intros u Hu. cbv beta in *.
           apply entity_class_outside; [now apply Hdig|lia..].
        -- constructor; [|constructor].
           apply entity_class_outside; [exact H59|lia..].
Qed.

Lemma encodeHTML_escaped (str : jsstring) :
  (forall u, In u entity_syntax_units -> folds_alone u) ->
  Forall (fun c => 0 <= c) str ->
  escaped (encodeHTML str).
Proof.
  intros Hsyn Hpos.
  assert (H8 : folds_alone 8) by (apply Hsyn; in_list).
  assert (H35 : folds_alone 35) by (apply Hsyn; in_list).
  induction Hpos as [|c rest Hc Hrest IH]; [exact I|].
  unfold encodeHTML in *. cbn [encode_entities].
  destruct (entity_class c && negb (followed_by_hash rest)) eqn:E.
  - destruct (entity_text c (filter (fun u => negb (ci_eq 8 u))
                                    (encode_entities rest)) Hsyn Hc)
      as [Hkeep Hesc].
    rewrite !app_assoc, filter_app, <- !app_assoc, Hkeep, <- !app_assoc.
    apply Hesc, IH.
  - cbn [filter]. destruct (ci_eq 8 c) eqn:Hbs; cbn [negb]; [exact IH|].
    cbn [escaped]. split; [|exact IH].
    intros Hcl. rewrite Hcl in E. cbn [andb] in E.
    apply negb_false_iff in E.
    destruct rest as [|h rest']; [discriminate|].
    cbn [followed_by_hash] in E.
    apply (ci_eq_alone 35 h H35) in E. subst h.
    cbn [encode_entities].
    rewrite entity_class_outside; [|exact H35|lia..]. cbn [andb filter].
    rewrite not_backspace; [|exact H8|lia]. cbn [negb followed_by_hash].
    apply Z.eqb_refl.
Qed.

Lemma escaped_spelled (t a r : jsstring) (c : Z) :
  escaped t -> t = a ++ c :: r -> entity_class c = true ->
  followed_by_hash r = true.
Proof.
  revert t; induction a as [|x a IH]; intros t Ht Heq Hc; subst t.
  - now apply Ht.
  - destruct Ht as [_ Ht]. now apply (IH _ Ht eq_refl).
Qed.

Lemma encodeHTML_guarantee (str : jsstring) :
  (forall u, In u entity_syntax_units -> folds_alone u) ->
  Forall (fun c => 0 <= c) str ->
  ~ In 8 (encodeHTML str) /\
  (forall a c r,
     encodeHTML str = a ++ c :: r ->
     c = 60 \/ c = 62 \/ c = 38 \/ entity_class c = true ->
     exists r', r = 35 :: r').
Proof.
  intros Hsyn Hpos. split.
  - intros Hin. apply filter_In in Hin as [_ Hin].
    unfold ci_eq in Hin. now rewrite Z.eqb_refl in Hin.
  - intros a c r Heq Hc.
    assert (Hcl : entity_class c = true).
    { destruct Hc as [Hc | [Hc | [Hc | Hc]]]; [| | |exact Hc];
        apply entity_class_listed; auto. }
    pose proof (escaped_spelled _ a r c (encodeHTML_escaped str Hsyn Hpos)
                  Heq Hcl) as Hh.
    destruct r as [|h r']; [discriminate|]. cbn [followed_by_hash] in Hh.
    assert (H35 : folds_alone 35) by (apply Hsyn; in_list).
    apply (ci_eq_alone 35 h H35) in Hh. subst h. now exists r'.
Qed.


(** X5.  When the hash, the semicolon, the digits and the backspace fold
    only to themselves, the text [encodeHTML] returns holds no backspace,
    and each of its units of the escaped class (among them the less-than
    sign, the greater-than sign and the ampersand) is directly followed by
    a hash: such a unit is either the ampersand of an entity or a unit the
    source text already had in front of a hash, which is left as it is. *)
Theorem X5_encodeHTML_escapes (str : jsstring) :
  (forall u, In u entity_syntax_units -> folds_alone u) ->
  Forall (fun c => 0 <= c) str ->
  ~ In 8 (encodeHTML str) /\
  (forall a c r,
     encodeHTML str = a ++ c :: r ->
     c = 60 \/ c = 62 \/ c = 38 \/ entity_class c = true ->
     exists r', r = 35 :: r').
Proof. exact (encodeHTML_guarantee str). Qed.






Lemma encodeHTML_twice (str : jsstring) :
  (forall u, In u entity_syntax_units -> folds_alone u) ->
  Forall (fun c => 0 <= c) str ->
  encodeHTML (encodeHTML str) = encodeHTML str.
Proof.
  intros Hsyn Hpos.
  pose proof (encodeHTML_escaped str Hsyn Hpos) as Hesc.
  unfold encodeHTML at 1. rewrite (escaped_fixed _ Hesc).
  unfold encodeHTML. apply filter_twice.
Qed.

(** X6.  Under the same condition [encodeHTML] is idempotent: a text that
    has been encoded is not changed by encoding it again. *)
Theorem X6_encodeHTML_idempotent (str : jsstring) :
  (forall u, In u entity_syntax_units -> folds_alone u) ->
  Forall (fun c => 0 <= c) str ->
  encodeHTML (encodeHTML str) = encodeHTML str.
Proof. exact (encodeHTML_twice str). Qed.

(** X7.  Under the same condition the error card does not escape twice:
    the card of a message that was already encoded, as the messages built
    by [wrapTextMultiline] are, is the card of the message itself. *)
Theorem X7_renderError_encoded_message (message secondaryMessage : jsstring) :
  (forall u, In u entity_syntax_units -> folds_alone u) ->
  Forall (fun c => 0 <= c) message ->
  renderError (encodeHTML message) secondaryMessage
  = renderError message secondaryMessage.
Proof.
  intros Hsyn Hpos. unfold renderError.
  now rewrite (encodeHTML_twice message Hsyn Hpos).
Qed.

(** X8.  A text without a unit of the escaped class and without a unit
    that folds like the backspace is returned by [encodeHTML] as it is. *)
Theorem X8_encodeHTML_plain (str : jsstring) :
  Forall (fun c => entity_class c = false /\ ci_eq 8 c = false) str ->
  encodeHTML str = str.
Proof.
  intros Hplain. unfold encodeHTML.
  assert (Henc : encode_entities str = str).
  { induction Hplain as [|c rest [Hc _] _ IH]; [reflexivity|].
    cbn [encode_entities]. rewrite Hc. cbn [andb]. now rewrite IH. }
  rewrite Henc. apply filter_same.
  eapply Forall_impl; [|exact Hplain].
  intros c [_ Hc]. cbv beta. now rewrite Hc.
Qed.

(** ** The error classes *)

Lemma join_In_contains (sep x : jsstring) (l : list jsstring) :
  In x l -> contains (join sep l) x.
Proof.
  induction l as [|y l IH]; intros Hin; [contradiction|].
  destruct l as [|z l].
  - destruct Hin as [-> | []]. exists [], []. cbn [join app].
    now rewrite app_nil_r.
  - rewrite join_cons2. destruct Hin as [-> | Hin].
    + now exists [], (sep ++ join sep (z :: l)).
    + destruct (IH Hin) as (pre & post & Heq).
      exists (y ++ sep ++ pre), post. rewrite Heq.
      now rewrite <- !app_assoc.
Qed.

(** X9.  The message of a [MissingParamError] names every missing
    parameter, each between double quotes, and the error keeps the list it
    was given. *)
Theorem X9_MissingParamError_names_params
    (missedParams : list jsstring) (secondaryMessage : option jsstring)
    (p : jsstring) :
  In p missedParams ->
  contains (err_message (new_MissingParamError missedParams secondaryMessage))
           (dq ++ p ++ dq) /\
  new_MissingParamError missedParams secondaryMessage
  = MissingParamError missedParams secondaryMessage
      (err_message (new_MissingParamError missedParams secondaryMessage)).
Proof.
  intros Hin. split; [|reflexivity].
  unfold new_MissingParamError. cbn [err_message].
  destruct (join_In_contains (lit ", ") (dq ++ p ++ dq)
              (map (fun q => dq ++ q ++ dq) missedParams))
    as (pre & post & Heq).
  { apply in_map_iff. now exists p. }
  exists (lit "Missing params " ++ pre),
         (post ++ lit " make sure you pass the parameters in URL").
  rewrite Heq. now rewrite <- !app_assoc.
Qed.

(** X10.  The secondary message of a [CustomError] is never undefined, and
    it is the empty string only when the type is the empty string. *)
Theorem X10_CustomError_secondary_defined
    (message : option jsstring) (type : jsstring) :
  err_secondaryMessage (new_CustomError message type) <> VUndefined /\
  (err_secondaryMessage (new_CustomError message type) = VString [] <->
   type = []).
Proof.
  unfold new_CustomError. cbn [err_secondaryMessage].
  destruct (get_property SECONDARY_ERROR_MESSAGES type) as [|v|k] eqn:E;
    cbn [val_truthy].
  - split; [discriminate|]. split; [now intros [= ->]|now intros ->].
  - destruct v as [|c v]; cbn [str_truthy].
    + split; [discriminate|]. split; [now intros [= ->]|now intros ->].
    + split; [discriminate|]. split; [discriminate|].
      intros ->. discriminate E.
  - split; [discriminate|]. split; [discriminate|].
    intros ->. discriminate E.
Qed.

(** X11.  For every entry of the table of secondary messages, a
    [CustomError] built with the key of the entry as its type carries the
    text of the entry as its secondary message. *)
Theorem X11_CustomError_known_type
    (message : option jsstring) (type text : jsstring) :
  In (type, text) SECONDARY_ERROR_MESSAGES ->
  err_secondaryMessage (new_CustomError message type) = VString text.
Proof.
  intros Hin. unfold SECONDARY_ERROR_MESSAGES in Hin. cbn [In] in Hin.
  destruct Hin as [H | [H | [H | [H | []]]]];
    injection H as <- <-; reflexivity.
Qed.

(** ** Clamping *)

(** X12.  Clamping is idempotent: a clamped value is not changed by
    clamping it again between the same bounds, whatever the bounds. *)
Theorem X12_clampValue_idempotent (n : jsnum) (lo hi : Z) :
  clampValue (clampValue n (Num lo) (Num hi)) (Num lo) (Num hi)
  = clampValue n (Num lo) (Num hi).
Proof.
  destruct n as [|z|negative].
  - rewrite clampValue_NaN, clampValue_Num. f_equal. lia.
  - rewrite !clampValue_Num. f_equal. lia.
  - rewrite clampValue_Infinity, clampValue_Num. f_equal. lia.
Qed.

(** X13.  When the bounds are the wrong way round (min above max),
    [clampValue] returns min for every number. *)
Theorem X13_clampValue_inverted_bounds (n : jsnum) (lo hi : Z) :
  hi < lo -> clampValue n (Num lo) (Num hi) = Num lo.
Proof.
  intros H. destruct n as [|z|negative];
    [reflexivity| |apply clampValue_Infinity].
  rewrite clampValue_Num. f_equal. lia.
Qed.

(** ** Fetching *)

(** X14.  [fetcher] sends exactly one request: a POST to the GraphQL
    endpoint with the repository query, the variables it was given and the
    token as a bearer credential.  The answer of the network is its own
    outcome; a response is written to the console, a failure is not. *)
Theorem X14_fetcher_one_request
    (variables : RepoVariables) (token : jsstring) (w : World) :
  let rq := mkAxiosRequest (lit "https://api.github.com/graphql") (lit "post")
              [(lit "Authorization", lit "bearer " ++ token)]
              GRAPHQL_REPO_QUERY variables in
  let w1 := mkWorld (sent w ++ [rq]) (console w) in
  sent (snd (fetcher variables token w)) = sent w ++ [rq] /\
  fst (fetcher variables token w) = axios rq w1 /\
  console (snd (fetcher variables token w))
  = match axios rq w1 with
    | Return res => console w ++ [console_log_res res]
    | Throw _ => console w
    end.
Proof.
  intros rq w1. unfold fetcher, bind, request. fold rq. fold w1.
  destruct (axios rq w1) as [res | e]; repeat split.
Qed.

Lemma fetchStats_sent (repo : jsstring) (w : World) :
  str_truthy repo = true ->
  sent (snd (fetchStats repo w)) = sent (snd (statsFetcher repo w)).
Proof.
  intros Hrepo.
  destruct (statsFetcher repo w) as [[res | e] w'] eqn:Hstats.
  - destruct (errors (data res)) as [errs|] eqn:Herrs.
    + destruct (fetchStats_errors repo w w' res errs Hrepo Hstats Herrs)
        as (w'' & Hsent & Hrun).
      rewrite Hrun. cbn [snd].
      destruct errs as [|e0 rest]; [exact Hsent|].
      destruct (opt_eqb (gql_type e0) (lit "NOT_FOUND")); [exact Hsent|].
      destruct (opt_truthy (gql_message e0)); exact Hsent.
    + unfold fetchStats. rewrite Hrepo. cbn [negb]. unfold bind.
      now rewrite Hstats, Herrs.
  - unfold fetchStats. rewrite Hrepo. cbn [negb]. unfold bind.
    now rewrite Hstats.
Qed.

(** X15.  An error thrown by the retrier passes through [fetchStats]
    unchanged, and [fetchStats] adds nothing to the world on the way:
    such an error is neither classified nor logged there. *)
Theorem X15_fetchStats_propagates
    (repo : jsstring) (w w' : World) (e : JsError) :
  str_truthy repo = true ->
  statsFetcher repo w = (Throw e, w') ->
  fetchStats repo w = (Throw e, w').
Proof.
  intros Hrepo Hstats. unfold fetchStats. rewrite Hrepo. cbn [negb].
  unfold bind. now rewrite Hstats.
Qed.

(** X16.  What [fetchStats] returns has been through the whole check: the
    identifier was not empty, the response is the one the retrier
    returned, in the world the retrier left, and it has no [errors]
    field. *)
Theorem X16_fetchStats_returns_clean
    (repo : jsstring) (w w1 : World) (res : AxiosResponse) :
  fetchStats repo w = (Return res, w1) ->
  str_truthy repo = true /\
  statsFetcher repo w = (Return res, w1) /\
  errors (data res) = None.
Proof.
  intros Hrun. destruct (str_truthy repo) eqn:Hrepo.
  - destruct (statsFetcher repo w) as [[res' | e] w'] eqn:Hstats.
    + destruct (errors (data res')) as [errs|] eqn:Herrs.
      * destruct (fetchStats_errors repo w w' res' errs Hrepo Hstats Herrs)
          as (w'' & _ & Hrun').
        rewrite Hrun in Hrun'.
        destruct errs as [|e0 rest]; [discriminate|].
        destruct (opt_eqb (gql_type e0) (lit "NOT_FOUND")); [discriminate|].
        destruct (opt_truthy (gql_message e0)); discriminate.
      * unfold fetchStats in Hrun. rewrite Hrepo in Hrun. cbn [negb] in Hrun.
        unfold bind in Hrun. rewrite Hstats, Herrs in Hrun.
        injection Hrun as <- <-. now repeat split.
    + unfold fetchStats in Hrun. rewrite Hrepo in Hrun. cbn [negb] in Hrun.
      unfold bind in Hrun. rewrite Hstats in Hrun. discriminate.
  - unfold fetchStats in Hrun. rewrite Hrepo in Hrun. discriminate.
Qed.

(** X17.  [fetchStats] sends no request of its own: the requests sent
    after it are those sent by the retrier, and none at all for the empty
    identifier. *)
Theorem X17_fetchStats_sends_nothing (repo : jsstring) (w : World) :
  sent (snd (fetchStats repo w))
  = if str_truthy repo then sent (snd (statsFetcher repo w)) else sent w.
Proof.
  destruct (str_truthy repo) eqn:Hrepo; [now apply fetchStats_sent|].
  unfold fetchStats. now rewrite Hrepo.
Qed.

(** X18.  Under the test configuration the logger is silent: whatever the
    response, [fetchStats] leaves the world exactly as the retrier left
    it, and the handler leaves it exactly as [fetchStats] left it. *)
Theorem X18_test_configuration_is_silent
    (req : NextApiRequest) (res0 : ServerResponse) (repo : jsstring)
    (w : World) :
  NODE_ENV env = Some (lit "test") ->
  (str_truthy repo = true ->
   snd (fetchStats repo w) = snd (statsFetcher repo w)) /\
  snd (handler req res0 w) = snd (fetchStats (parseString (query_repo req)) w).
Proof.
  intros Htest.
  assert (Hlog : forall entry w0, logger_error entry w0 = (Return tt, w0)).
  { intros entry w0. unfold logger_error. rewrite Htest.
    now rewrite str_eqb_refl. }
  split.
  - intros Hrepo. unfold fetchStats. rewrite Hrepo. cbn [negb]. unfold bind.
    destruct (statsFetcher repo w) as [[res | e] w']; [|reflexivity].
    destruct (errors (data res)) as [errs|]; [|reflexivity].
    rewrite Hlog. destruct errs as [|e0 rest]; [reflexivity|].
    destruct (opt_eqb (gql_type e0) (lit "NOT_FOUND")); [reflexivity|].
    destruct (opt_truthy (gql_message e0)); reflexivity.
  - unfold handler.
    destruct (fetchStats (parseString (query_repo req)) w) as [[stats | err] w1];
      cbv zeta; cbn [snd].
    + unfold json. destruct (client_request stats); [reflexivity|].
      unfold on_error. now rewrite Hlog.
    + unfold on_error. now rewrite Hlog.
Qed.

(** ** The route *)

(** X19.  The label of the response depends on how far the handler got:
    when [fetchStats] throws, the card is sent as image/svg+xml; when
    [fetchStats] returns, [res.json] has replaced the label by
    application/json, and it stays so even if the statistics cannot be
    serialized and the card is sent instead. *)
Theorem X19_handler_content_type
    (req : NextApiRequest) (res0 : ServerResponse) (w : World) :
  getHeader (lit "Content-Type") (fst (handler req res0 w))
  = match fst (fetchStats (parseString (query_repo req)) w) with
    | Return _ => Some (lit "application/json; charset=utf-8")
    | Throw _ => Some (lit "image/svg+xml")
    end.
Proof.
  assert (Hne : lit "Content-Type" <> lit "Cache-Control").
  { intros H. apply str_eqb_eq in H. discriminate H. }
  unfold handler.
  destruct (fetchStats (parseString (query_repo req)) w) as [[stats | err] w1];
    cbv zeta; cbn [fst].
  - unfold json. destruct (client_request stats); cbn [fst].
    + unfold getHeader, setHeader. cbn [headers].
      apply own_property_set_assoc.
    + unfold on_error. cbv zeta. cbn [fst].
      unfold send, getHeader, setHeader. cbn [headers].
      rewrite (own_property_set_assoc_other _ _ _ _ Hne).
      apply own_property_set_assoc.
  - unfold on_error. cbv zeta. cbn [fst].
    unfold send, getHeader, setHeader. cbn [headers].
    rewrite (own_property_set_assoc_other _ _ _ _ Hne).
    apply own_property_set_assoc.
Qed.

(** X20.  Outside the test configuration the handler writes the error it
    caught to the console, once, and touches nothing else of the world:
    the error thrown by [fetchStats], or the error thrown by [res.json]
    when the statistics cannot be serialized.  When nothing is thrown it
    leaves the world as [fetchStats] left it. *)
Theorem X20_handler_logs_the_error
    (req : NextApiRequest) (res0 : ServerResponse) (w : World) :
  NODE_ENV env <> Some (lit "test") ->
  snd (handler req res0 w)
  = match fetchStats (parseString (query_repo req)) w with
    | (Return stats, w1) =>
        match client_request stats with
        | plain_request => w1
        | cyclic_request report =>
            mkWorld (sent w1)
              (console w1 ++ [console_error_err (TypeError report)])
        end
    | (Throw err, w1) =>
        mkWorld (sent w1) (console w1 ++ [console_error_err err])
    end.
Proof.
  intros Hlive.
  assert (Hlog : forall entry w0,
            logger_error entry w0
            = (Return tt, mkWorld (sent w0) (console w0 ++ [entry]))).
  { intros entry w0. unfold logger_error.
    destruct (NODE_ENV env) as [v|]; [|reflexivity].
    rewrite str_eqb_neq; [reflexivity|congruence]. }
  unfold handler.
  destruct (fetchStats (parseString (query_repo req)) w) as [[stats | err] w1];
    cbv zeta.
  - unfold json. destruct (client_request stats); [reflexivity|].
    unfold on_error. now rewrite Hlog.
  - unfold on_error. now rewrite Hlog.
Qed.

(** ** Wrapping *)

Lemma drop_while_head (p : Z -> bool) (s r : jsstring) (c : Z) :
  drop_while p s = c :: r -> p c = false.
Proof.
  induction s as [|x s IH]; cbn [drop_while]; [discriminate|].
  destruct (p x) eqn:E; [exact IH|]. now intros [= <- _].
Qed.

Lemma drop_while_suffix (p : Z -> bool) (s : jsstring) :
  exists a, s = a ++ drop_while p s.
Proof.
  induction s as [|x s [a IH]]; [now exists []|].
  cbn [drop_while]. destruct (p x); [|now exists []].
  exists (x :: a). cbn [app]. now rewrite <- IH.
Qed.

Lemma edge_clean_trim (s : jsstring) : edge_clean (trim s).
Proof.
  unfold trim. set (u := drop_while is_white_space s). split.
  - intros c r Heq.
    destruct (drop_while_suffix is_white_space (rev u)) as [a Ha].
    apply (f_equal (@rev Z)) in Ha.
    rewrite rev_involutive, rev_app_distr, Heq in Ha.
    apply (drop_while_head is_white_space s (r ++ rev a) c). exact Ha.
  - intros a c Heq. apply (f_equal (@rev Z)) in Heq.
    rewrite rev_involutive, rev_app_distr in Heq.
    exact (drop_while_head _ _ _ _ Heq).
Qed.

Lemma edge_clean_dots (x : jsstring) :
  edge_clean x -> edge_clean (x ++ lit "...").
Proof.
  intros [Hhead _]. split.
  - intros c r Heq. destruct x as [|y x].
    + injection Heq as <- _. reflexivity.
    + injection Heq as <- _. now apply (Hhead y x).
  - intros a c Heq. change (lit "...") with ([46; 46] ++ [46]) in Heq.
    rewrite app_assoc in Heq. apply app_inj_tail in Heq as [_ <-].
    reflexivity.
Qed.

Lemma Forall_append_at_nat (P : jsstring -> Prop) (a : list jsstring)
    (i : nat) (suffix : jsstring) :
  Forall P a -> (forall x, P x -> P (x ++ suffix)) ->
  P (lit "undefined" ++ suffix) ->
  Forall P (append_at_nat a i suffix).
Proof.
  intros Ha Hext Hnew. revert i.
  induction Ha as [|x a Hx Ha IH]; intros i.
  - destruct i; cbn [append_at_nat]; now repeat constructor.
  - destruct i; cbn [append_at_nat]; constructor; auto.
Qed.

Lemma Forall_filter {A : Type} (P : A -> Prop) (f : A -> bool) (l : list A) :
  Forall P l -> Forall P (filter f l).
Proof.
  intros H. apply Forall_forall. intros x Hx.
  apply filter_In in Hx as [Hx _]. revert x Hx. now apply Forall_forall.
Qed.

Lemma Forall_firstn_keep {A : Type} (P : A -> Prop) (n : nat) (l : list A) :
  Forall P l -> Forall P (firstn n l).
Proof.
  intros H. rewrite <- (firstn_skipn n l) in H.
  now apply Forall_app in H.
Qed.

(** X21.  When the wrapped text has no more lines than allowed, nothing is
    cut and no dots are added: [wrapTextMultiline] returns the trimmed
    lines of the wrapped text that are not empty. *)
Theorem X21_wrapTextMultiline_fits (text : jsstring) (width maxLines : Z) :
  Z.of_nat (length (wrapped_lines text width)) <= maxLines ->
  wrapTextMultiline text width maxLines
  = filter str_truthy (map trim (wrapped_lines text width)).
Proof.
  intros Hfit. unfold wrapTextMultiline.
  replace (Z.of_nat (length (wrapped_lines text width)) >? maxLines)
    with false by (symmetry; rewrite Z.gtb_ltb; apply Z.ltb_ge; lia).
  unfold slice0.
  replace (maxLines <? 0) with false by (symmetry; apply Z.ltb_ge; lia).
  rewrite firstn_all2; [reflexivity|]. rewrite length_map. lia.
Qed.

Lemma wrapTextMultiline_lines_edge_clean
    (text : jsstring) (width maxLines : Z) :
  Forall edge_clean (wrapTextMultiline text width maxLines).
Proof.
  unfold wrapTextMultiline. apply Forall_filter.
  assert (Hlines : Forall edge_clean
                     (slice0 (map trim (wrapped_lines text width)) maxLines)).
  { unfold slice0.
    destruct (maxLines <? 0); apply Forall_firstn_keep, Forall_forall;
      intros x Hx; apply in_map_iff in Hx as (y & <- & _);
      apply edge_clean_trim. }
  destruct (Z.of_nat (length (wrapped_lines text width)) >? maxLines);
    [|exact Hlines].
  unfold append_at. destruct (maxLines - 1 <? 0); [exact Hlines|].
  apply Forall_append_at_nat; [exact Hlines|apply edge_clean_dots|].
  split.
  - intros c r Heq. injection Heq as <- _. reflexivity.
  - intros a c Heq.
    change (lit "undefined" ++ lit "...")
      with (lit "undefined.." ++ [46]) in Heq.
    apply app_inj_tail in Heq as [_ <-]. reflexivity.
Qed.

(** X22.  No line returned by [wrapTextMultiline] begins or ends with
    white space, whatever the text, the width and the number of lines. *)
Theorem X22_wrapTextMultiline_edge_clean
    (text : jsstring) (width maxLines : Z) :
  Forall edge_clean (wrapTextMultiline text width maxLines).
Proof. exact (wrapTextMultiline_lines_edge_clean text width maxLines). Qed.

(** ** The message of an unclassified GraphQL error *)

Lemma drop_while_length (p : Z -> bool) (s : jsstring) :
  (length (drop_while p s) <= length s)%nat.
Proof.
  induction s as [|c s IH]; cbn [drop_while length]; [lia|].
  destruct (p c); cbn [length]; lia.
Qed.

Lemma trim_length (s : jsstring) : (length (trim s) <= length s)%nat.
Proof.
  unfold trim. rewrite length_rev.
  pose proof (drop_while_length is_white_space
                (rev (drop_while is_white_space s))) as H1.
  pose proof (drop_while_length is_white_space s) as H2.
  rewrite length_rev in H1. lia.
Qed.

(** The one line kept by [wrapTextMultiline(text, 90, 1)] is the first
    wrapped line, trimmed, with the dots when more lines follow. *)
Lemma first_line_of_one (text line : jsstring) :
  nth_error (wrapTextMultiline text 90 1) 0 = Some line ->
  exists x rest,
    wrapped_lines text 90 = x :: rest /\
    line = trim x ++ match rest with [] => [] | _ :: _ => lit "..." end.
Proof.
  unfold wrapTextMultiline.
  destruct (wrapped_lines text 90) as [|x rest]; [discriminate|].
  intros H. exists x, rest. split; [reflexivity|].
  change (slice0 (map trim (x :: rest)) 1) with [trim x] in H.
  destruct rest as [|y rest].
  - change (Z.of_nat (length [x]) >? 1) with false in H.
    cbn [filter] in H. rewrite app_nil_r.
    destruct (str_truthy (trim x)); cbn [nth_error] in H; [|discriminate].
    now injection H as <-.
  - replace (Z.of_nat (length (x :: y :: rest)) >? 1) with true in H
      by (symmetry; apply Z.gtb_lt; cbn [length]; lia).
    change (append_at [trim x] (1 - 1) (lit "..."))
      with [trim x ++ lit "..."] in H.
    cbn [filter] in H. rewrite str_truthy_app_r in H by reflexivity.
    cbn [nth_error] in H. now injection H as <-.
Qed.

(** C2 (as the code has it).  When the first entry of [errors] has a type
    other than NOT_FOUND: with a message that is present and not empty,
    [fetchStats] fails with a [CustomError] whose type is the status text
    of the response and whose message is the one line kept by
    [wrapTextMultiline(message, 90, 1)] (the empty message when no line
    is kept).  That line has no white space at its ends and ends with
    three dots when the wrapped text has more lines; it is not cut to 90
    characters: it is as long as the first line that the wrapper
    returns, plus the dots.  Without such a message [fetchStats] fails
    with a [CustomError] of type GRAPHQL_ERROR that carries the generic
    text. *)
Theorem C2_graphql_error
    (repo : jsstring) (w w' : World) (res : AxiosResponse)
    (e0 : GqlError) (rest : list GqlError) :
  str_truthy repo = true ->
  statsFetcher repo w = (Return res, w') ->
  errors (data res) = Some (e0 :: rest) ->
  gql_type e0 <> Some (lit "NOT_FOUND") ->
  exists e w'',
    fetchStats repo w = (Throw e, w'') /\
    (forall m, gql_message e0 = Some m -> m <> [] ->
       err_type e = Some (statusText res) /\
       err_message e = match wrapTextMultiline m 90 1 with
                       | line :: _ => line
                       | [] => []
                       end /\
       (length (wrapTextMultiline m 90 1) <= 1)%nat /\
       edge_clean (err_message e) /\
       (Z.of_nat (length (wrapped_lines m 90)) > 1 ->
        endsWith (err_message e) (lit "...")) /\
       (forall L : nat,
          Forall (fun line => (length line <= L)%nat) (wrapped_lines m 90) ->
          (length (err_message e) <= L + 3)%nat)) /\
    (gql_message e0 = None \/ gql_message e0 = Some [] ->
       err_type e = Some GRAPHQL_ERROR /\
       err_message e
       = lit "Something went wrong while trying to retrieve the stats data using the GraphQL API." /\
       err_secondaryMessage e = VString (lit "Please try again later")).
Proof.
  intros Hrepo Hstats Herrs Htype.
  destruct (fetchStats_errors repo w w' res _ Hrepo Hstats Herrs)
    as (w'' & _ & Hrun).
  rewrite (opt_eqb_neq _ _ Htype) in Hrun.
  destruct (opt_truthy (gql_message e0)) eqn:Hmsg.
  - eexists; exists w''. split; [exact Hrun|]. split.
    + intros m Hm Hne. rewrite Hm. cbn [the_string].
      assert (Hhead :
        err_message (new_CustomError (nth_error (wrapTextMultiline m 90 1) 0)
                                     (statusText res))
        = match wrapTextMultiline m 90 1 with
          | line :: _ => line
          | [] => []
          end)
        by (cbn [new_CustomError err_message];
            now destruct (wrapTextMultiline m 90 1)).
      pose proof (wrapTextMultiline_length m 90 1 ltac:(lia)) as Hlen.
      split; [reflexivity|]. split; [exact Hhead|]. split; [lia|].
      rewrite Hhead. split; [|split].
      * pose proof (wrapTextMultiline_lines_edge_clean m 90 1) as Hclean.
        destruct (wrapTextMultiline m 90 1) as [|line lines].
        -- split; [discriminate|intros [|? ?] ? ?; discriminate].
        -- now inversion Hclean.
      * intros Hlong.
        destruct (wrapTextMultiline_ellipsis m 90 1 ltac:(lia) Hlong)
          as (init & line & Heq).
        rewrite Heq in *. rewrite length_app in Hlen. cbn [length] in Hlen.
        destruct init as [|? ?]; [|cbn [length] in Hlen; lia].
        now exists line.
      * intros L HL.
        destruct (wrapTextMultiline m 90 1) as [|line lines] eqn:Hw;
          [cbn [length]; lia|].
        destruct (first_line_of_one m line) as (x & more & Hx & ->);
          [now rewrite Hw|].
        rewrite Hx in HL. inversion HL as [|? ? Hxl _]; subst.
        rewrite length_app. pose proof (trim_length x).
        destruct more; cbn [length]; [lia|].
        change (length (lit "...")) with 3%nat. lia.
    + intros Habs. rewrite (opt_truthy_absent _ Habs) in Hmsg. discriminate.
  - eexists; exists w''. split; [exact Hrun|]. split.
    + intros m Hm Hne. rewrite Hm, (opt_truthy_some m Hne) in Hmsg.
      discriminate.
    + intros _. repeat split.
Qed.

End Program.

(* ================================================================== *)
(** * The claims on sample runs                                        *)
(* ================================================================== *)

(** The runs below use the ASCII case folding, the [word-wrap] model, a
    retrier with one credential and a network with one fixed answer. *)

(** NOT_FOUND without a message: the default text is used. *)
Lemma C1_not_found_error_witness :
  str_truthy (lit "a/b") = true /\
  errors (data (ok_response not_found_body))
  = Some [mkGqlError (Some (lit "NOT_FOUND")) None] /\
  exists e w'',
    fetchStats canonicalize_ascii word_wrap
      (answering (ok_response not_found_body)) (retryer_single (lit "token"))
      plain_env (lit "a/b") initial_world = (Throw e, w'') /\
    err_type e = Some USER_NOT_FOUND /\
    err_message e = lit "Could not fetch user.".
Proof.
  split; [reflexivity|]. split; [reflexivity|].
  destruct (C1_not_found_error canonicalize_ascii word_wrap
              (answering (ok_response not_found_body))
              (retryer_single (lit "token")) plain_env
              (lit "a/b") initial_world
              (snd (statsFetcher (answering (ok_response not_found_body))
                      (retryer_single (lit "token")) (lit "a/b")
                      initial_world))
              (ok_response not_found_body)
              (mkGqlError (Some (lit "NOT_FOUND")) None) []
              eq_refl eq_refl eq_refl eq_refl)
    as (e & w'' & Hrun & Hty & _ & _ & Hdef).
  exists e, w''. split; [exact Hrun|]. split; [exact Hty|].
  apply Hdef. now left.
Defined.

(** The default text is not the one the claim gives. *)
Lemma C1_default_message_counterexample :
  fst (fetchStats canonicalize_ascii word_wrap
         (answering (ok_response not_found_body)) (retryer_single (lit "token"))
         plain_env (lit "a/b") initial_world)
  = Throw (CustomError (lit "Could not fetch user.") USER_NOT_FOUND
             (VString (lit "Make sure the provided username is not an organization"))) /\
  lit "Could not fetch user." <> lit "Could not fetch repository.".
Proof.
  split; [vm_compute; reflexivity|].
  intros H. apply str_eqb_eq in H. vm_compute in H. discriminate H.
Qed.

(** A message without a type, on a response whose status text is OK. *)
Lemma C2_graphql_error_witness :
  str_truthy (lit "a/b") = true /\
  errors (data (ok_response message_body))
  = Some [mkGqlError None (Some (lit "x < y"))] /\
  (None : option jsstring) <> Some (lit "NOT_FOUND") /\
  exists e w'',
    fetchStats canonicalize_ascii word_wrap
      (answering (ok_response message_body)) (retryer_single (lit "token"))
      plain_env (lit "a/b") initial_world = (Throw e, w'') /\
    err_type e = Some (lit "OK") /\
    err_message e = lit "x &#60; y".
Proof.
  split; [reflexivity|]. split; [reflexivity|]. split; [discriminate|].
  destruct (C2_graphql_error canonicalize_ascii word_wrap
              (answering (ok_response message_body))
              (retryer_single (lit "token")) plain_env
              (lit "a/b") initial_world
              (snd (statsFetcher (answering (ok_response message_body))
                      (retryer_single (lit "token")) (lit "a/b")
                      initial_world))
              (ok_response message_body)
              (mkGqlError None (Some (lit "x < y"))) []
              eq_refl eq_refl eq_refl ltac:(discriminate))
    as (e & w'' & Hrun & Hmsg & _).
  destruct (Hmsg (lit "x < y") eq_refl ltac:(discriminate))
    as (Hty & Hm & _).
  exists e, w''. split; [exact Hrun|]. split; [exact Hty|].
  rewrite Hm. vm_compute. reflexivity.
Defined.

(** With a message the error is not typed GRAPHQL_ERROR: its type is the
    status text.  And its message is not held to 90 characters: a word of
    one hundred letters comes back whole. *)
Lemma C2_error_type_counterexample :
  fst (fetchStats canonicalize_ascii word_wrap
         (answering (ok_response long_word_body)) (retryer_single (lit "token"))
         plain_env (lit "a/b") initial_world)
  = Throw (CustomError hundred_letters (lit "OK") (VString (lit "OK"))) /\
  err_type (CustomError hundred_letters (lit "OK") (VString (lit "OK")))
  <> Some GRAPHQL_ERROR /\
  (length (err_message
             (CustomError hundred_letters (lit "OK") (VString (lit "OK"))))
   > 90)%nat.
Proof.
  split; [vm_compute; reflexivity|]. split.
  - vm_compute. discriminate.
  - cbn [err_message]. unfold hundred_letters. rewrite repeat_length. lia.
Qed.

Lemma C3_owner_and_name_witness :
  ~ In 47 (lit "moonrailgun") /\
  owner (build_variables (lit "moonrailgun" ++ lit "/" ++ lit "tailchat"))
  = Some (lit "moonrailgun") /\
  name (build_variables (lit "moonrailgun" ++ lit "/" ++ lit "tailchat"))
  = Some (lit "tailchat").
Proof.
  assert (Ho : ~ In 47 (lit "moonrailgun"))
    by (vm_compute; intuition discriminate).
  assert (Hr : ~ In 47 (lit "tailchat"))
    by (vm_compute; intuition discriminate).
  split; [exact Ho|].
  destruct (C3_owner_and_name (lit "moonrailgun") (lit "tailchat") Ho)
    as (Hown & _ & Hname & _).
  split; [exact Hown|]. exact (Hname Hr).
Defined.

(** The name is not the whole remainder after the first slash, and it is
    empty when a second slash follows the first at once. *)
Lemma C3_remainder_counterexample :
  name (build_variables (lit "a" ++ lit "/" ++ lit "b/c")) = Some (lit "b") /\
  name (build_variables (lit "a" ++ lit "/" ++ lit "b/c"))
  <> Some (lit "b/c") /\
  name (build_variables (lit "a" ++ lit "/" ++ lit "/b")) = Some [].
Proof.
  split; [reflexivity|]. split; [|reflexivity].
  vm_compute. discriminate.
Qed.



Lemma C5_missing_repo_witness :
  parseString (QArray []) = [] /\
  sent (snd (handler canonicalize_ascii word_wrap
               (answering (ok_response found_body))
               (retryer_single (lit "token")) plain_env
               (mkNextApiRequest (QArray []) QUndefined)
               fresh_response initial_world)) = [] /\
  getHeader (lit "Cache-Control")
    (fst (handler canonicalize_ascii word_wrap
            (answering (ok_response found_body))
            (retryer_single (lit "token")) plain_env
            (mkNextApiRequest (QArray []) QUndefined)
            fresh_response initial_world))
  = Some (lit "no-cache, no-store, must-revalidate").
Proof.
  split; [reflexivity|].
  destruct (C5_missing_repo canonicalize_ascii word_wrap
              (answering (ok_response found_body))
              (retryer_single (lit "token")) plain_env
              (mkNextApiRequest (QArray []) QUndefined)
              fresh_response initial_world eq_refl)
    as (_ & Hsent & Hhdr & _).
  split; [exact Hsent|exact Hhdr].
Defined.

Lemma C6_absent_errors_pass_through_witness :
  str_truthy (lit "a/b") = true /\
  errors (data (ok_response found_body)) = None /\
  fst (fetchStats canonicalize_ascii word_wrap
         (answering (ok_response found_body)) (retryer_single (lit "token"))
         plain_env (lit "a/b") initial_world)
  = Return (ok_response found_body).
Proof.
  split; [reflexivity|]. split; [reflexivity|].
  rewrite (C6_absent_errors_pass_through canonicalize_ascii word_wrap
             (answering (ok_response found_body))
             (retryer_single (lit "token")) plain_env
             (lit "a/b") initial_world
             (snd (statsFetcher (answering (ok_response found_body))
                     (retryer_single (lit "token")) (lit "a/b")
                     initial_world))
             (ok_response found_body) eq_refl eq_refl eq_refl).
  reflexivity.
Defined.

(** An empty [errors] array is not passed through: reading its first entry
    fails. *)
Lemma C6_empty_errors_counterexample :
  errors (data (ok_response empty_errors_body)) = Some [] /\
  fst (fetchStats canonicalize_ascii word_wrap
         (answering (ok_response empty_errors_body))
         (retryer_single (lit "token")) plain_env (lit "a/b") initial_world)
  = Throw (TypeError undefined_type_message) /\
  fst (fetchStats canonicalize_ascii word_wrap
         (answering (ok_response empty_errors_body))
         (retryer_single (lit "token")) plain_env (lit "a/b") initial_world)
  <> Return (ok_response empty_errors_body).
Proof.
  split; [reflexivity|]. split; [vm_compute; reflexivity|].
  vm_compute. discriminate.
Qed.



(** A long message on one line of 20 units: one line comes back and it
    ends with the dots. *)
Lemma C8_wrapTextMultiline_lines_witness :
  1 <= 20 /\ 1 <= 1 /\
  Z.of_nat (length (wrapped_lines canonicalize_ascii word_wrap
                      (lit "Could not resolve to a Repository") 20)) > 1 /\
  Z.of_nat (length (wrapTextMultiline canonicalize_ascii word_wrap
                      (lit "Could not resolve to a Repository") 20 1)) <= 1 /\
  exists init line,
    wrapTextMultiline canonicalize_ascii word_wrap
      (lit "Could not resolve to a Repository") 20 1 = init ++ [line] /\
    endsWith line (lit "...").
Proof.
  assert (Hw : 1 <= 20) by lia. assert (Hm : 1 <= 1) by lia.
  assert (Hlong :
    Z.of_nat (length (wrapped_lines canonicalize_ascii word_wrap
                        (lit "Could not resolve to a Repository") 20)) > 1)
    by (vm_compute; reflexivity).
  split; [exact Hw|]. split; [exact Hm|]. split; [exact Hlong|].
  destruct (C8_wrapTextMultiline_lines canonicalize_ascii word_wrap
              (lit "Could not resolve to a Repository") 20 1 Hw Hm)
    as (Hlen & _ & Hdots).
  split; [exact Hlen|exact (Hdots Hlong)].
Defined.

Lemma C9_clampValue_witness :
  14400 <= 86400 /\
  clampValue (Num 10) (Num 14400) (Num 86400) = Num 14400 /\
  clampValue (Num 100000) (Num 14400) (Num 86400) = Num 86400 /\
  clampValue (parseInt (lit "soon")) (Num 14400) (Num 86400) = Num 14400.
Proof.
  assert (Hle : 14400 <= 86400) by lia.
  destruct (C9_clampValue 14400 86400 Hle) as (_ & Hnan & _ & Hnum).
  split; [exact Hle|]. split; [exact (proj1 (Hnum 10))|].
  split; [exact (proj1 (Hnum 100000))|exact Hnan].
Defined.

(** The status text OK is no key of the table and no inherited name: it
    becomes the secondary line of the card. *)
Lemma X23_unknown_type_is_secondary_message_witness :
  lit "OK" <> MAX_RETRY /\
  lit "OK" <> USER_NOT_FOUND /\
  lit "OK" <> GRAPHQL_ERROR /\
  lit "OK" <> lit "WAKATIME_USER_NOT_FOUND" /\
  ~ In (lit "OK") Object_prototype_keys /\
  err_secondaryMessage (new_CustomError (Some (lit "x")) (lit "OK"))
  = VString (lit "OK") /\
  body (fst (handler canonicalize_ascii word_wrap
               (answering (ok_response message_body))
               (retryer_single (lit "token")) plain_env
               (mkNextApiRequest (QString (lit "a/b")) QUndefined)
               fresh_response initial_world))
  = SentBody (renderError canonicalize_ascii (lit "x &#60; y") (lit "OK")).
Proof.
  assert (H1 : lit "OK" <> MAX_RETRY) by (vm_compute; discriminate).
  assert (H2 : lit "OK" <> USER_NOT_FOUND) by (vm_compute; discriminate).
  assert (H3 : lit "OK" <> GRAPHQL_ERROR) by (vm_compute; discriminate).
  assert (H4 : lit "OK" <> lit "WAKATIME_USER_NOT_FOUND")
    by (vm_compute; discriminate).
  assert (H5 : ~ In (lit "OK") Object_prototype_keys)
    by (vm_compute; intuition discriminate).
  destruct (X23_unknown_type_is_secondary_message canonicalize_ascii
              word_wrap (answering (ok_response message_body))
              (retryer_single (lit "token")) plain_env
              (lit "OK") H1 H2 H3 H4 H5) as (Hsec & Hcard).
  repeat (split; [assumption|]).
  split; [apply Hsec|].
  rewrite (Hcard (mkNextApiRequest (QString (lit "a/b")) QUndefined)
             fresh_response initial_world
             (snd (statsFetcher (answering (ok_response message_body))
                     (retryer_single (lit "token")) (lit "a/b")
                     initial_world))
             (ok_response message_body)
             (mkGqlError None (Some (lit "x < y"))) [] (lit "x < y")
             eq_refl eq_refl eq_refl ltac:(discriminate) eq_refl
             ltac:(discriminate) eq_refl).
  vm_compute. reflexivity.
Defined.

(** C10.  The secondary message of a [CustomError] whose type is not one
    of the four keys should be the type itself.  The type constructor is
    none of the four keys, yet the table answers it with a member
    inherited from [Object.prototype], and that member, not the type,
    becomes the secondary message. *)
Lemma C10_inherited_name_counterexample :
  lit "constructor" <> MAX_RETRY /\
  lit "constructor" <> USER_NOT_FOUND /\
  lit "constructor" <> GRAPHQL_ERROR /\
  lit "constructor" <> lit "WAKATIME_USER_NOT_FOUND" /\
  err_secondaryMessage (new_CustomError (Some (lit "x")) (lit "constructor"))
  = VBuiltin (lit "constructor") /\
  err_secondaryMessage (new_CustomError (Some (lit "x")) (lit "constructor"))
  <> VString (lit "constructor").
Proof.
  repeat split; try (vm_compute; discriminate).
Qed.

(* ================================================================== *)
(** * The further properties on sample inputs                          *)
(* ================================================================== *)

(** The ASCII folding sends no other unit onto the hash, the semicolon, a
    digit or the backspace. *)
Lemma canonicalize_ascii_syntax_alone (u : Z) :
  In u entity_syntax_units -> folds_alone canonicalize_ascii u.
Proof.
  intros Hu x Hx. unfold canonicalize_ascii in Hx.
  assert (Hsmall : 0 <= u < 60).
  { unfold entity_syntax_units in Hu. cbn [In] in Hu.
    repeat destruct Hu as [<- | Hu]; try lia. }
  replace ((97 <=? u) && (u <=? 122)) with false in Hx
    by (symmetry; apply andb_false_iff; left; apply Z.leb_gt; lia).
  destruct ((97 <=? x) && (x <=? 122)) eqn:E; [|exact Hx].
  apply andb_true_iff in E as [E _]. apply Z.leb_le in E. lia.
Qed.

Lemma X2_parseArray_pieces_witness :
  lit "a,b,,c" <> [] /\
  parseArray (QString (lit "a,b,,c"))
  = Return [lit "a"; lit "b"; []; lit "c"].
Proof.
  assert (Hs : lit "a,b,,c" <> []) by (vm_compute; discriminate).
  split; [exact Hs|].
  destruct (X2_parseArray_pieces (lit "a,b,,c") Hs) as (pieces & Hrun & _).
  rewrite Hrun. vm_compute in Hrun. now injection Hrun as <-.
Defined.

Lemma X3_build_variables_no_slash_witness :
  ~ In 47 (lit "tailchat") /\
  owner (build_variables (lit "tailchat")) = Some (lit "tailchat") /\
  name (build_variables (lit "tailchat")) = None.
Proof.
  assert (Hs : ~ In 47 (lit "tailchat"))
    by (vm_compute; intuition discriminate).
  split; [exact Hs|].
  rewrite (X3_build_variables_no_slash (lit "tailchat") Hs).
  split; reflexivity.
Defined.

Lemma X5_encodeHTML_escapes_witness :
  Forall (fun c => 0 <= c) (lit "a<b & <#c") /\
  encodeHTML canonicalize_ascii (lit "a<b & <#c")
  = lit "a&#60;b &#38; <#c" /\
  ~ In 8 (encodeHTML canonicalize_ascii (lit "a<b & <#c")).
Proof.
  assert (Hpos : Forall (fun c => 0 <= c) (lit "a<b & <#c"))
    by (vm_compute; repeat constructor; discriminate).
  split; [exact Hpos|]. split; [vm_compute; reflexivity|].
  exact (proj1 (X5_encodeHTML_escapes canonicalize_ascii (lit "a<b & <#c")
                  canonicalize_ascii_syntax_alone Hpos)).
Defined.

Lemma X6_encodeHTML_idempotent_witness :
  Forall (fun c => 0 <= c) (lit "x < y & z") /\
  encodeHTML canonicalize_ascii (lit "x &#60; y &#38; z")
  = lit "x &#60; y &#38; z".
Proof.
  assert (Hpos : Forall (fun c => 0 <= c) (lit "x < y & z"))
    by (vm_compute; repeat constructor; discriminate).
  split; [exact Hpos|].
  pose proof (X6_encodeHTML_idempotent canonicalize_ascii (lit "x < y & z")
                canonicalize_ascii_syntax_alone Hpos) as Htwice.
  replace (encodeHTML canonicalize_ascii (lit "x < y & z"))
    with (lit "x &#60; y &#38; z") in Htwice by (vm_compute; reflexivity).
  exact Htwice.
Defined.

Lemma X7_renderError_encoded_message_witness :
  Forall (fun c => 0 <= c) (lit "x < y") /\
  renderError canonicalize_ascii (lit "x &#60; y") (lit "OK")
  = renderError canonicalize_ascii (lit "x < y") (lit "OK").
Proof.
  assert (Hpos : Forall (fun c => 0 <= c) (lit "x < y"))
    by (vm_compute; repeat constructor; discriminate).
  split; [exact Hpos|].
  pose proof (X7_renderError_encoded_message canonicalize_ascii
                (lit "x < y") (lit "OK")
                canonicalize_ascii_syntax_alone Hpos) as Hcard.
  replace (encodeHTML canonicalize_ascii (lit "x < y"))
    with (lit "x &#60; y") in Hcard by (vm_compute; reflexivity).
  exact Hcard.
Defined.

Lemma X8_encodeHTML_plain_witness :
  Forall (fun c => entity_class canonicalize_ascii c = false /\
                   ci_eq canonicalize_ascii 8 c = false) (lit "a/b") /\
  encodeHTML canonicalize_ascii (lit "a/b") = lit "a/b".
Proof.
  assert (Hplain :
    Forall (fun c => entity_class canonicalize_ascii c = false /\
                     ci_eq canonicalize_ascii 8 c = false) (lit "a/b"))
    by (repeat constructor; vm_compute; reflexivity).
  split; [exact Hplain|].
  exact (X8_encodeHTML_plain canonicalize_ascii (lit "a/b") Hplain).
Defined.

Lemma X9_MissingParamError_names_params_witness :
  In (lit "repo") [lit "username"; lit "repo"] /\
  contains
    (lit "Missing params " ++ dq ++ lit "username" ++ dq ++ lit ", " ++
     dq ++ lit "repo" ++ dq ++ lit " make sure you pass the parameters in URL")
    (dq ++ lit "repo" ++ dq).
Proof.
  assert (Hin : In (lit "repo") [lit "username"; lit "repo"])
    by (right; left; reflexivity).
  split; [exact Hin|].
  exact (proj1 (X9_MissingParamError_names_params
                  [lit "username"; lit "repo"] None (lit "repo") Hin)).
Defined.

Lemma X11_CustomError_known_type_witness :
  In (MAX_RETRY,
      lit "Please add an env variable called PAT_1 with your github token in vercel")
     SECONDARY_ERROR_MESSAGES /\
  err_secondaryMessage (new_CustomError (Some (lit "x")) MAX_RETRY)
  = VString (lit "Please add an env variable called PAT_1 with your github token in vercel").
Proof.
  assert (Hin :
    In (MAX_RETRY,
        lit "Please add an env variable called PAT_1 with your github token in vercel")
       SECONDARY_ERROR_MESSAGES) by (left; reflexivity).
  split; [exact Hin|].
  exact (X11_CustomError_known_type (Some (lit "x")) _ _ Hin).
Defined.

Lemma X13_clampValue_inverted_bounds_witness :
  14400 < 86400 /\ clampValue (Num 50000) (Num 86400) (Num 14400) = Num 86400.
Proof.
  assert (H : 14400 < 86400) by lia.
  split; [exact H|].
  exact (X13_clampValue_inverted_bounds (Num 50000) 86400 14400 H).
Defined.

Lemma X15_fetchStats_propagates_witness :
  str_truthy (lit "a/b") = true /\
  fst (fetchStats canonicalize_ascii word_wrap
         (failing (Error (lit "Network Error"))) (retryer_single (lit "token"))
         plain_env (lit "a/b") initial_world)
  = Throw (Error (lit "Network Error")) /\
  console (snd (fetchStats canonicalize_ascii word_wrap
                  (failing (Error (lit "Network Error")))
                  (retryer_single (lit "token"))
                  plain_env (lit "a/b") initial_world)) = [].
Proof.
  split; [reflexivity|].
  rewrite (X15_fetchStats_propagates canonicalize_ascii word_wrap
             (failing (Error (lit "Network Error")))
             (retryer_single (lit "token")) plain_env
             (lit "a/b") initial_world
             (snd (statsFetcher (failing (Error (lit "Network Error")))
                     (retryer_single (lit "token")) (lit "a/b")
                     initial_world))
             (Error (lit "Network Error")) eq_refl eq_refl).
  split; reflexivity.
Defined.

Lemma X16_fetchStats_returns_clean_witness :
  fetchStats canonicalize_ascii word_wrap
    (answering (ok_response found_body)) (retryer_single (lit "token"))
    plain_env (lit "a/b") initial_world
  = (Return (ok_response found_body),
     snd (statsFetcher (answering (ok_response found_body))
            (retryer_single (lit "token")) (lit "a/b") initial_world)) /\
  errors (data (ok_response found_body)) = None.
Proof.
  assert (Hrun :
    fetchStats canonicalize_ascii word_wrap
      (answering (ok_response found_body)) (retryer_single (lit "token"))
      plain_env (lit "a/b") initial_world
    = (Return (ok_response found_body),
       snd (statsFetcher (answering (ok_response found_body))
              (retryer_single (lit "token")) (lit "a/b") initial_world)))
    by (vm_compute; reflexivity).
  split; [exact Hrun|].
  exact (proj2 (proj2 (X16_fetchStats_returns_clean canonicalize_ascii
                         word_wrap (answering (ok_response found_body))
                         (retryer_single (lit "token")) plain_env
                         (lit "a/b") initial_world _ _ Hrun))).
Defined.

Lemma X18_test_configuration_is_silent_witness :
  NODE_ENV test_env = Some (lit "test") /\
  console (snd (handler canonicalize_ascii word_wrap
                  (failing (Error (lit "Network Error")))
                  (retryer_single (lit "token")) test_env
                  (mkNextApiRequest (QString (lit "a/b")) QUndefined)
                  fresh_response initial_world)) = [].
Proof.
  split; [reflexivity|].
  rewrite (proj2 (X18_test_configuration_is_silent canonicalize_ascii
                    word_wrap (failing (Error (lit "Network Error")))
                    (retryer_single (lit "token")) test_env
                    (mkNextApiRequest (QString (lit "a/b")) QUndefined)
                    fresh_response (lit "a/b") initial_world eq_refl)).
  vm_compute. reflexivity.
Defined.

Lemma X20_handler_logs_the_error_witness :
  NODE_ENV plain_env <> Some (lit "test") /\
  console (snd (handler canonicalize_ascii word_wrap
                  (failing (Error (lit "Network Error")))
                  (retryer_single (lit "token")) plain_env
                  (mkNextApiRequest (QString (lit "a/b")) QUndefined)
                  fresh_response initial_world))
  = [console_error_err (Error (lit "Network Error"))].
Proof.
  assert (Hlive : NODE_ENV plain_env <> Some (lit "test")) by discriminate.
  split; [exact Hlive|].
  rewrite (X20_handler_logs_the_error canonicalize_ascii word_wrap
             (failing (Error (lit "Network Error")))
             (retryer_single (lit "token")) plain_env
             (mkNextApiRequest (QString (lit "a/b")) QUndefined)
             fresh_response initial_world Hlive).
  vm_compute. reflexivity.
Defined.

Lemma X21_wrapTextMultiline_fits_witness :
  Z.of_nat (length (wrapped_lines canonicalize_ascii word_wrap
                      (lit "Could not resolve to a Repository") 20)) <= 3 /\
  wrapTextMultiline canonicalize_ascii word_wrap
    (lit "Could not resolve to a Repository") 20 3
  = [lit "Could not resolve to"; lit "a Repository"].
Proof.
  assert (Hfit :
    Z.of_nat (length (wrapped_lines canonicalize_ascii word_wrap
                        (lit "Could not resolve to a Repository") 20)) <= 3)
    by (vm_compute; discriminate).
  split; [exact Hfit|].
  rewrite (X21_wrapTextMultiline_fits canonicalize_ascii word_wrap
             (lit "Could not resolve to a Repository") 20 3 Hfit).
  vm_compute. reflexivity.
Defined.
